(** * MJPEG stream handler of the ESP32 camera HTTP server

    A shallow embedding of [stream_handler] from [src/app_httpd.cpp]:
    the handler's locals become a record that is threaded through the
    statements of the loop body, every call into a collaborator (frame
    source, JPEG encoder, HTTP transport, scheduler, logger) is recorded
    as an event of a trace, and the collaborators' answers are read from
    an environment.  The loop is [while(true)], so the model runs it for
    a given number of iterations. *)

From Stdlib Require Import ZArith List String Ascii Bool Lia.
From Stdlib.Strings Require Import Byte.
Import ListNotations.
Local Open Scope string_scope.
Local Open Scope list_scope.
Local Open Scope Z_scope.

(** ** Text and bytes *)

Definition CR : ascii := ascii_of_nat 13.
Definition LF : ascii := ascii_of_nat 10.
Definition CRLF : string := String CR (String LF "").

Definition bytes_of (s : string) : list byte := list_byte_of_string s.

(** ** printf conversions

    The target is a 32-bit machine: [int], [long], [unsigned] and
    [size_t] are 32 bits wide, and so are the [time_t] and
    [suseconds_t] of a [struct timeval]; [%u] prints its argument as an
    unsigned 32-bit value and [%d] as a signed one. *)

Definition to_uint32 (v : Z) : Z := v mod 2 ^ 32.
Definition to_sint32 (v : Z) : Z := (v + 2 ^ 31) mod 2 ^ 32 - 2 ^ 31.

Definition digit_char (d : Z) : ascii := ascii_of_nat (48 + Z.to_nat d).
Definition digit_val (c : ascii) : Z := Z.of_nat (nat_of_ascii c) - 48.
Definition is_digit (c : ascii) : bool :=
  (0 <=? digit_val c) && (digit_val c <=? 9).

(** Decimal digits of a non-negative number, most significant first; a
    32-bit value has at most ten of them. *)
Fixpoint utoa_aux (fuel : nat) (x : Z) (acc : string) : string :=
  match fuel with
  | O => acc
  | S fuel' =>
      let acc' := String (digit_char (x mod 10)) acc in
      if x / 10 =? 0 then acc' else utoa_aux fuel' (x / 10) acc'
  end.

Definition utoa (x : Z) : string := utoa_aux 10 x "".

Fixpoint zeros (n : nat) : string :=
  match n with
  | O => ""
  | S n' => String "0" (zeros n')
  end.

Definition pad0 (width : nat) (s : string) : string :=
  zeros (width - String.length s) ++ s.

(** [%u] *)
Definition fmt_u (v : Z) : string := utoa (to_uint32 v).

(** [%d] *)
Definition fmt_d (v : Z) : string :=
  let x := to_sint32 v in
  if x <? 0 then String "-" (utoa (- x)) else utoa x.

(** [%0<w>d]: the sign counts towards the field width. *)
Definition fmt_0d (width : nat) (v : Z) : string :=
  let x := to_sint32 v in
  if x <? 0 then String "-" (pad0 (width - 1) (utoa (- x)))
  else pad0 width (utoa x).

(** The conversions that occur in this program's format strings:
    [%u], [%d] and [%0<w>d] with a one-digit width. *)
Fixpoint vformat (fmt : string) (args : list Z) : string :=
  match fmt with
  | EmptyString => ""
  | String "%" (String "u" rest) =>
      fmt_u (hd 0 args) ++ vformat rest (tl args)
  | String "%" (String "d" rest) =>
      fmt_d (hd 0 args) ++ vformat rest (tl args)
  | String "%" (String "0" (String w (String "d" rest))) =>
      fmt_0d (Z.to_nat (digit_val w)) (hd 0 args) ++ vformat rest (tl args)
  | String c rest => String c (vformat rest args)
  end.

(** [snprintf(buf, size, fmt, ...)]: at most [size - 1] characters and a
    terminating NUL are stored at the start of [buf]; the value returned
    is the length the whole text would have had. *)
Definition snprintf (buf : list byte) (size : nat) (fmt : string)
    (args : list Z) : list byte * Z :=
  let out := bytes_of (vformat fmt args) in
  let written :=
    match size with
    | O => []
    | S m => firstn m out ++ [x00]
    end in
  (written ++ skipn (List.length written) buf, Z.of_nat (List.length out)).

(** Decimal value of a digit string (used to read headers back). *)
Fixpoint atou_aux (acc : Z) (s : string) : Z :=
  match s with
  | EmptyString => acc
  | String c rest => atou_aux (10 * acc + digit_val c) rest
  end.

Definition atou (s : string) : Z := atou_aux 0 s.

Fixpoint all_digits (s : string) : bool :=
  match s with
  | EmptyString => true
  | String c rest => is_digit c && all_digits rest
  end.

(** ** Constants of the handler *)

Definition PART_BOUNDARY : string := "123456789000000000000987654321".

Definition _STREAM_CONTENT_TYPE : string :=
  "multipart/x-mixed-replace;boundary=" ++ PART_BOUNDARY.

Definition _STREAM_BOUNDARY : string :=
  CRLF ++ "--" ++ PART_BOUNDARY ++ CRLF.

Definition _STREAM_PART : string :=
  "Content-Type: image/jpeg" ++ CRLF ++
  "Content-Length: %u" ++ CRLF ++
  "X-Timestamp: %d.%06d" ++ CRLF ++ CRLF.

(** ** Data model *)

Definition esp_err_t := Z.
Definition ESP_OK : esp_err_t := 0.
Definition ESP_FAIL : esp_err_t := -1.

(** [pixformat_t] of the camera driver. *)
Inductive pixformat_t :=
| PIXFORMAT_RGB565
| PIXFORMAT_YUV422
| PIXFORMAT_YUV420
| PIXFORMAT_GRAYSCALE
| PIXFORMAT_JPEG
| PIXFORMAT_RGB888
| PIXFORMAT_RAW
| PIXFORMAT_RGB444
| PIXFORMAT_RGB555.

Definition is_jpeg (f : pixformat_t) : bool :=
  match f with
  | PIXFORMAT_JPEG => true
  | _ => false
  end.

Record timeval := { tv_sec : Z; tv_usec : Z }.

(** A heap block: where it lives and what it holds. *)
Record buffer := { addr : Z; bytes : list byte }.

(** [camera_fb_t] of the camera driver. *)
Record camera_fb_t := {
  buf : buffer;
  len : Z;
  width : Z;
  height : Z;
  format : pixformat_t;
  timestamp : timeval
}.

Definition pixformat_eq_dec (a b : pixformat_t) : {a = b} + {a <> b}.
Proof. decide equality. Defined.

Definition timeval_eq_dec (a b : timeval) : {a = b} + {a <> b}.
Proof. decide equality; apply Z.eq_dec. Defined.

Definition buffer_eq_dec (a b : buffer) : {a = b} + {a <> b}.
Proof.
  decide equality; [apply (list_eq_dec Byte.byte_eq_dec) | apply Z.eq_dec].
Defined.

Definition camera_fb_eq_dec (a b : camera_fb_t) : {a = b} + {a <> b}.
Proof.
  decide equality;
    auto using Z.eq_dec, timeval_eq_dec, pixformat_eq_dec, buffer_eq_dec.
Defined.

(** The three places of the loop body that call
    [httpd_resp_send_chunk]. *)
Inductive chunk_site := Boundary | Header | Payload.

(** ** Events: one per call into a collaborator *)

Inductive event :=
| EvSetType (type : string) (r : esp_err_t)
    (* httpd_resp_set_type *)
| EvSetHdr (field value : string)
    (* httpd_resp_set_hdr; its result is discarded *)
| EvFbGet (r : option camera_fb_t)
    (* esp_camera_fb_get; [None] is the NULL result *)
| EvFrame2Jpg (fb : camera_fb_t) (quality : Z) (r : option (buffer * Z))
    (* frame2jpg; [Some (b, n)] is success with the outputs stored *)
| EvFbReturn (fb : camera_fb_t)
    (* esp_camera_fb_return *)
| EvFree (b : buffer)
    (* free *)
| EvSendChunk (site : chunk_site) (data : option (list byte)) (n : Z)
    (r : esp_err_t)
    (* httpd_resp_send_chunk; [data] is the memory the pointer argument
       points to ([None] for NULL), [n] the length argument *)
| EvLog (msg : string)
    (* ESP_LOGE *)
| EvDelay (ticks : Z).
    (* vTaskDelay *)

(** The bytes a chunk write takes from its buffer argument. *)
Definition chunk_bytes (data : option (list byte)) (n : Z) : list byte :=
  match data with
  | Some d => firstn (Z.to_nat n) d
  | None => []
  end.

(** ** Environment: what the collaborators answer

    [frame2jpg] either fails and leaves its two output arguments as they
    were, or stores a freshly allocated buffer and its length in them. *)

Record iter_env := {
  esp_camera_fb_get : option camera_fb_t;
  frame2jpg : camera_fb_t -> Z -> option (buffer * Z);
  httpd_resp_send_chunk : chunk_site -> esp_err_t
}.

Record env := {
  httpd_resp_set_type : esp_err_t;
  iters : nat -> iter_env
}.

(** ** Locals of [stream_handler] *)

Record locals := {
  fb : option camera_fb_t;
  _timestamp : timeval;
  res : esp_err_t;
  _jpg_buf_len : Z;
  _jpg_buf : option buffer;
  part_buf : list byte
}.

Definition set_fb (v : option camera_fb_t) (s : locals) : locals :=
  {| fb := v; _timestamp := _timestamp s; res := res s;
     _jpg_buf_len := _jpg_buf_len s; _jpg_buf := _jpg_buf s;
     part_buf := part_buf s |}.

Definition set_timestamp (v : timeval) (s : locals) : locals :=
  {| fb := fb s; _timestamp := v; res := res s;
     _jpg_buf_len := _jpg_buf_len s; _jpg_buf := _jpg_buf s;
     part_buf := part_buf s |}.

Definition set_res (v : esp_err_t) (s : locals) : locals :=
  {| fb := fb s; _timestamp := _timestamp s; res := v;
     _jpg_buf_len := _jpg_buf_len s; _jpg_buf := _jpg_buf s;
     part_buf := part_buf s |}.

Definition set_jpg (b : option buffer) (n : Z) (s : locals) : locals :=
  {| fb := fb s; _timestamp := _timestamp s; res := res s;
     _jpg_buf_len := n; _jpg_buf := b; part_buf := part_buf s |}.

Definition set_jpg_buf (b : option buffer) (s : locals) : locals :=
  set_jpg b (_jpg_buf_len s) s.

Definition set_part_buf (v : list byte) (s : locals) : locals :=
  {| fb := fb s; _timestamp := _timestamp s; res := res s;
     _jpg_buf_len := _jpg_buf_len s; _jpg_buf := _jpg_buf s;
     part_buf := v |}.

(** A statement: new locals and the events it caused. *)
Definition stmt := locals -> locals * list event.

Definition seq (a b : stmt) : stmt :=
  fun s =>
    let (s1, t1) := a s in
    let (s2, t2) := b s1 in
    (s2, t1 ++ t2).

Notation "a ;; b" := (seq a b) (at level 61, right associativity).

Definition ok (r : esp_err_t) : bool := r =? ESP_OK.

(** ** The loop body, statement by statement *)

Section Handler.

(** FreeRTOS configuration constant; the repository does not define it. *)
Variable portTICK_PERIOD_MS : Z.

(** Lines 68-88: acquire a frame and make sure there is a JPEG buffer. *)
Definition acquire (e : iter_env) : stmt :=
  fun s =>
    match esp_camera_fb_get e with
    | None =>
        (set_res ESP_FAIL (set_fb None s),
         [EvFbGet None; EvLog "Camera capture failed"])
    | Some f =>
        let s := set_timestamp (timestamp f) (set_fb (Some f) s) in
        if negb (is_jpeg (format f)) then
          let conv := frame2jpg e f 80 in
          let s :=
            match conv with
            | Some (b, n) => set_jpg (Some b) n s
            | None => s
            end in
          let s := set_fb None s in
          match conv with
          | Some _ =>
              (s, [EvFbGet (Some f); EvFrame2Jpg f 80 conv; EvFbReturn f])
          | None =>
              (set_res ESP_FAIL s,
               [EvFbGet (Some f); EvFrame2Jpg f 80 conv; EvFbReturn f;
                EvLog "JPEG compression failed"])
          end
        else
          (set_jpg (Some (buf f)) (len f) s, [EvFbGet (Some f)])
    end.

(** Lines 89-91. *)
Definition send_boundary (e : iter_env) : stmt :=
  fun s =>
    if ok (res s) then
      let r := httpd_resp_send_chunk e Boundary in
      (set_res r s,
       [EvSendChunk Boundary (Some (bytes_of _STREAM_BOUNDARY))
          (Z.of_nat (String.length _STREAM_BOUNDARY)) r])
    else (s, []).

(** Lines 92-95. *)
Definition send_header (e : iter_env) : stmt :=
  fun s =>
    if ok (res s) then
      let p :=
        snprintf (part_buf s) 128 _STREAM_PART
          [_jpg_buf_len s; tv_sec (_timestamp s); tv_usec (_timestamp s)] in
      let hlen := snd p in
      let r := httpd_resp_send_chunk e Header in
      (set_res r (set_part_buf (fst p) s),
       [EvSendChunk Header (Some (fst p)) hlen r])
    else (s, []).

(** Lines 96-98. *)
Definition send_payload (e : iter_env) : stmt :=
  fun s =>
    if ok (res s) then
      let r := httpd_resp_send_chunk e Payload in
      (set_res r s,
       [EvSendChunk Payload (option_map bytes (_jpg_buf s))
          (_jpg_buf_len s) r])
    else (s, []).

(** Lines 99-106. *)
Definition release : stmt :=
  fun s =>
    match fb s with
    | Some f => (set_jpg_buf None (set_fb None s), [EvFbReturn f])
    | None =>
        match _jpg_buf s with
        | Some b => (set_jpg_buf None s, [EvFree b])
        | None => (s, [])
        end
    end.

(** Lines 68-106: one pass through the loop, up to the exit test. *)
Definition loop_body (e : iter_env) : stmt :=
  acquire e ;; send_boundary e ;; send_header e ;; send_payload e ;; release.

(** Lines 67-112.  [fuel] bounds the number of iterations run; the
    first component is [Some r] when the loop was left with [res = r]
    and [None] when it is still running, at the head of the loop, after
    [fuel] iterations.  [i] numbers the iterations. *)
Fixpoint stream_loop (fuel : nat) (it : nat -> iter_env) (i : nat)
    (s : locals) : option esp_err_t * locals * list event :=
  match fuel with
  | O => (None, s, [])
  | S fuel' =>
      let (s1, t1) := loop_body (it i) s in
      if negb (ok (res s1)) then (Some (res s1), s1, t1)
      else
        let '(r, s2, t2) := stream_loop fuel' it (S i) s1 in
        (r, s2, t1 ++ EvDelay (10 / portTICK_PERIOD_MS) :: t2)
  end.

(** What a run of the handler amounts to. *)
Record run := {
  ret : option esp_err_t;
  final : locals;
  trace : list event
}.

(** Lines 52-57; [_timestamp] and [part_buf] start with whatever the
    stack holds. *)
Definition init_locals (ts0 : timeval) (pb0 : list byte) : locals :=
  {| fb := None; _timestamp := ts0; res := ESP_OK; _jpg_buf_len := 0;
     _jpg_buf := None; part_buf := pb0 |}.

(** Lines 50-115. *)
Definition stream_handler (fuel : nat) (E : env) (ts0 : timeval)
    (pb0 : list byte) : run :=
  let s := init_locals ts0 pb0 in
  let r := httpd_resp_set_type E in
  let s := set_res r s in
  if negb (ok (res s)) then
    {| ret := Some (res s); final := s;
       trace := [EvSetType _STREAM_CONTENT_TYPE r] |}
  else
    let '(r', s', t) := stream_loop fuel (iters E) 0 s in
    {| ret := r'; final := s';
       trace := EvSetType _STREAM_CONTENT_TYPE r
                :: EvSetHdr "Access-Control-Allow-Origin" "*"
                :: EvSetHdr "X-Framerate" "60" :: t |}.

End Handler.

(** ** Vocabulary of the properties *)

(** The part header the handler is meant to send for a payload of [n]
    bytes captured at [sec].[usec]. *)
Definition part_header (n sec usec : Z) : string :=
  "Content-Type: image/jpeg" ++ CRLF ++
  "Content-Length: " ++ fmt_u n ++ CRLF ++
  "X-Timestamp: " ++ fmt_d sec ++ "." ++ fmt_0d 6 usec ++ CRLF ++ CRLF.

(** Values a frame of the driver can carry on the 32-bit target. *)
Definition size_ok (n : Z) : Prop := 0 <= n < 2 ^ 32.

Definition timeval_ok (t : timeval) : Prop :=
  0 <= tv_sec t < 2 ^ 31 /\ 0 <= tv_usec t < 1000000.

Definition frame_ok (f : camera_fb_t) : Prop :=
  size_ok (len f) /\ timeval_ok (timestamp f).

Definition iter_env_ok (e : iter_env) : Prop :=
  (forall f, esp_camera_fb_get e = Some f -> frame_ok f) /\
  (forall f q b n, frame2jpg e f q = Some (b, n) -> size_ok n).

(** Neither pointer local refers to a buffer. *)
Definition ptrs_null (s : locals) : Prop :=
  fb s = None /\ _jpg_buf s = None.

(** *** Buffer ownership

    A monitor of the acquire/release protocol: which frame and which
    encoder buffer the handler owns.  It rejects acquiring while the
    previous one is still owned, and releasing anything but the owned
    one. *)
Record owned := { held_fb : option camera_fb_t; held_jpg : option buffer }.

Definition nothing_held : owned := {| held_fb := None; held_jpg := None |}.

Definition own_step (o : owned) (ev : event) : option owned :=
  match ev with
  | EvFbGet (Some f) =>
      match held_fb o with
      | None => Some {| held_fb := Some f; held_jpg := held_jpg o |}
      | Some _ => None
      end
  | EvFbReturn f =>
      match held_fb o with
      | Some g =>
          if camera_fb_eq_dec f g
          then Some {| held_fb := None; held_jpg := held_jpg o |}
          else None
      | None => None
      end
  | EvFrame2Jpg _ _ (Some (b, _)) =>
      match held_jpg o with
      | None => Some {| held_fb := held_fb o; held_jpg := Some b |}
      | Some _ => None
      end
  | EvFree b =>
      match held_jpg o with
      | Some c =>
          if buffer_eq_dec b c
          then Some {| held_fb := held_fb o; held_jpg := None |}
          else None
      | None => None
      end
  | _ => Some o
  end.

Fixpoint own_run (o : owned) (t : list event) : option owned :=
  match t with
  | [] => Some o
  | ev :: t' =>
      match own_step o ev with
      | Some o' => own_run o' t'
      | None => None
      end
  end.

Definition count (p : event -> bool) (t : list event) : nat :=
  List.length (filter p t).

(** Calls of [esp_camera_fb_get], whatever they returned. *)
Definition is_acquire_call (ev : event) : bool :=
  match ev with EvFbGet _ => true | _ => false end.

(** Calls of [esp_camera_fb_get] that returned a frame. *)
Definition is_acquired (ev : event) : bool :=
  match ev with EvFbGet (Some _) => true | _ => false end.

Definition is_fb_return (ev : event) : bool :=
  match ev with EvFbReturn _ => true | _ => false end.

(** Calls of [frame2jpg] that allocated a buffer. *)
Definition is_encoded (ev : event) : bool :=
  match ev with EvFrame2Jpg _ _ (Some _) => true | _ => false end.

Definition is_encode_call (ev : event) : bool :=
  match ev with EvFrame2Jpg _ _ _ => true | _ => false end.

Definition is_free (ev : event) : bool :=
  match ev with EvFree _ => true | _ => false end.

Definition is_release (ev : event) : bool :=
  is_fb_return ev || is_free ev.

Definition is_chunk (ev : event) : bool :=
  match ev with EvSendChunk _ _ _ _ => true | _ => false end.

(** A payload chunk that the transport accepted closes a part. *)
Definition is_part_end (ev : event) : bool :=
  match ev with EvSendChunk Payload _ _ r => ok r | _ => false end.

Definition parts_emitted (t : list event) : nat := count is_part_end t.

(** *** Status of an operation

    The status the handler stores in [res] for an event, if any. *)
Definition op_status (ev : event) : option esp_err_t :=
  match ev with
  | EvSetType _ r => Some r
  | EvFbGet None => Some ESP_FAIL
  | EvFbGet (Some _) => Some ESP_OK
  | EvFrame2Jpg _ _ None => Some ESP_FAIL
  | EvFrame2Jpg _ _ (Some _) => Some ESP_OK
  | EvSendChunk _ _ _ r => Some r
  | _ => None
  end.

(** Acquisition, encoding or a transport write (or setting the content
    type) failed. *)
Definition is_failure (ev : event) : bool :=
  match op_status ev with
  | Some r => negb (ok r)
  | None => false
  end.

Fixpoint last_status (t : list event) : option esp_err_t :=
  match t with
  | [] => None
  | ev :: t' =>
      match last_status t' with
      | Some r => Some r
      | None => op_status ev
      end
  end.

(** *** Answers of the environment in one iteration *)

(** A frame arrives and, if it is not JPEG, the encoder succeeds. *)
Definition payload_ready (e : iter_env) : option (camera_fb_t * option buffer) :=
  match esp_camera_fb_get e with
  | None => None
  | Some f =>
      if is_jpeg (format f) then Some (f, None)
      else
        match frame2jpg e f 80 with
        | Some (b, _) => Some (f, Some b)
        | None => None
        end
  end.

(** The first of the three writes that the transport refuses. *)
Definition first_failed_write (e : iter_env) : option chunk_site :=
  if negb (ok (httpd_resp_send_chunk e Boundary)) then Some Boundary
  else if negb (ok (httpd_resp_send_chunk e Header)) then Some Header
  else if negb (ok (httpd_resp_send_chunk e Payload)) then Some Payload
  else None.

(** Nothing fails in the iteration. *)
Definition iter_ok (e : iter_env) : bool :=
  match payload_ready e, first_failed_write e with
  | Some _, None => true
  | _, _ => false
  end.

(** The release that is due for what [payload_ready] left in hand. *)
Definition due_release (h : camera_fb_t * option buffer) : event :=
  match h with
  | (_, Some b) => EvFree b
  | (f, None) => EvFbReturn f
  end.

(** The call sites of the chunk writes of a trace, in order. *)
Fixpoint sites_of (t : list event) : list chunk_site :=
  match t with
  | [] => []
  | EvSendChunk site _ _ _ :: t' => site :: sites_of t'
  | _ :: t' => sites_of t'
  end.

(** [a] is directly followed by [b] in [t]. *)
Definition next_to (a b : event) (t : list event) : Prop :=
  exists t1 t2, t = t1 ++ a :: b :: t2.

(** The content types a trace sets, in order. *)
Fixpoint types_set (t : list event) : list string :=
  match t with
  | [] => []
  | EvSetType ty _ :: t' => ty :: types_set t'
  | _ :: t' => types_set t'
  end.

(** Calls that set the content type or a header of the response. *)
Definition is_preamble (ev : event) : bool :=
  match ev with
  | EvSetType _ _ | EvSetHdr _ _ => true
  | _ => false
  end.

(** Calls of [httpd_resp_send_chunk]. *)
Definition chunk_writes (t : list event) : nat := count is_chunk t.

(** Calls of [esp_camera_fb_get] against calls of
    [esp_camera_fb_return] and [free]. *)
Definition acquire_calls (t : list event) : nat := count is_acquire_call t.
Definition release_free_calls (t : list event) : nat := count is_release t.

(** ** Sample environments *)

Module Sample.

Definition jpeg_bytes : list byte := [xff; xd8; xff; xd9].

Definition frame_jpeg : camera_fb_t :=
  {| buf := {| addr := 1073450000; bytes := jpeg_bytes |};
     len := 4; width := 320; height := 240;
     format := PIXFORMAT_JPEG;
     timestamp := {| tv_sec := 17; tv_usec := 42 |} |}.

Definition frame_rgb : camera_fb_t :=
  {| buf := {| addr := 1073460000; bytes := [x12; x34; x56; x78] |};
     len := 4; width := 2; height := 1;
     format := PIXFORMAT_RGB565;
     timestamp := {| tv_sec := 18; tv_usec := 500000 |} |}.

Definition encoded : buffer := {| addr := 1073470000; bytes := jpeg_bytes |}.

Definition encoder_works (f : camera_fb_t) (q : Z) : option (buffer * Z) :=
  Some (encoded, 4).

Definition encoder_fails (f : camera_fb_t) (q : Z) : option (buffer * Z) :=
  None.

Definition all_sent (site : chunk_site) : esp_err_t := ESP_OK.

Definition fails_at (bad : chunk_site) (site : chunk_site) : esp_err_t :=
  match bad, site with
  | Boundary, Boundary | Header, Header | Payload, Payload => ESP_FAIL
  | _, _ => ESP_OK
  end.

(** A JPEG frame that goes out whole. *)
Definition calm : iter_env :=
  {| esp_camera_fb_get := Some frame_jpeg;
     frame2jpg := encoder_works;
     httpd_resp_send_chunk := all_sent |}.

(** A raw frame that is encoded and goes out whole. *)
Definition calm_rgb : iter_env :=
  {| esp_camera_fb_get := Some frame_rgb;
     frame2jpg := encoder_works;
     httpd_resp_send_chunk := all_sent |}.

(** The frame source has nothing. *)
Definition no_frame : iter_env :=
  {| esp_camera_fb_get := None;
     frame2jpg := encoder_fails;
     httpd_resp_send_chunk := all_sent |}.

(** A raw frame that the encoder cannot take. *)
Definition bad_encode : iter_env :=
  {| esp_camera_fb_get := Some frame_rgb;
     frame2jpg := encoder_fails;
     httpd_resp_send_chunk := all_sent |}.

(** A JPEG frame, and the client goes away at the given write. *)
Definition hangup (bad : chunk_site) : iter_env :=
  {| esp_camera_fb_get := Some frame_jpeg;
     frame2jpg := encoder_works;
     httpd_resp_send_chunk := fails_at bad |}.

(** A raw frame that is encoded, and the client goes away at the given
    write. *)
Definition hangup_rgb (bad : chunk_site) : iter_env :=
  {| esp_camera_fb_get := Some frame_rgb;
     frame2jpg := encoder_works;
     httpd_resp_send_chunk := fails_at bad |}.

(** [n] iterations of [e], then [last] for ever. *)
Definition after (n : nat) (e last : iter_env) : env :=
  {| httpd_resp_set_type := ESP_OK;
     iters := fun i => if Nat.ltb i n then e else last |}.

(** The content type cannot be set. *)
Definition refused : env :=
  {| httpd_resp_set_type := ESP_FAIL; iters := fun _ => calm |}.

Definition ts0 : timeval := {| tv_sec := 0; tv_usec := 0 |}.
Definition pb0 : list byte := repeat x00 512.

(** The locals on entry to the loop. *)
Definition s0 : locals :=
  {| fb := None; _timestamp := ts0; res := ESP_OK; _jpg_buf_len := 0;
     _jpg_buf := None; part_buf := pb0 |}.

End Sample.

(** ** The rest of the server: index page and start-up *)

Definition DQ : ascii := ascii_of_nat 34.

(** [strlen]: the characters in front of the first NUL. *)
Fixpoint strlen (s : string) : nat :=
  match s with
  | EmptyString => O
  | String c rest =>
      if Nat.eqb (nat_of_ascii c) 0 then O else S (strlen rest)
  end.

(** A line of the page and the line feed that ends it. *)
Definition line (s : string) : string := s ++ String LF "".

(** [name="value"] *)
Definition attr (name value : string) : string :=
  name ++ "=" ++ String DQ value ++ String DQ "".

(** Lines 28-48: the raw literal starts with the line feed that follows
    its opening parenthesis. *)
Definition INDEX_HTML : string :=
  line "" ++
  line "<!doctype html>" ++
  line "<html>" ++
  line "<head>" ++
  line ("  <meta " ++ attr "charset" "utf-8" ++ ">") ++
  line ("  <meta " ++ attr "name" "viewport" ++ " " ++
        attr "content" "width=device-width,initial-scale=1" ++ ">") ++
  line "  <title>OV5640 Camera Stream</title>" ++
  line "  <style>" ++
  line "    body { font-family: Arial,Helvetica,sans-serif; background: #181818; color: #EEEEEE; }" ++
  line "    .main { text-align: center; }" ++
  line "    img { max-width: 100%; height: auto; }" ++
  line "  </style>" ++
  line "</head>" ++
  line "<body>" ++
  line ("  <div " ++ attr "class" "main" ++ ">") ++
  line "    <h1>OV5640 Camera Stream</h1>" ++
  line ("    <img " ++ attr "id" "stream" ++ " " ++
        attr "src" "/stream" ++ ">") ++
  line "  </div>" ++
  line "</body>" ++
  line "</html>".

(** [httpd_method_t], as far as the HTTP parser numbers it. *)
Inductive httpd_method_t :=
| HTTP_DELETE
| HTTP_GET
| HTTP_HEAD
| HTTP_POST
| HTTP_PUT.

(** The two functions of this file that are registered as handlers. *)
Inductive handler_t := Index_handler | Stream_handler.

(** [httpd_uri_t]; [user_ctx] is [None] for NULL. *)
Record httpd_uri_t := {
  uri : string;
  method : httpd_method_t;
  handler : handler_t;
  user_ctx : option Z
}.

(** [httpd_handle_t]: [None] is NULL. *)
Definition httpd_handle_t := option Z.

(** [httpd_config_t], as far as this file is concerned: the port it
    sets, and some of the fields it leaves as the default has them. *)
Record httpd_config_t := {
  task_priority : Z;
  stack_size : Z;
  server_port : Z;
  ctrl_port : Z;
  max_open_sockets : Z;
  max_uri_handlers : Z
}.

Definition set_server_port (p : Z) (c : httpd_config_t) : httpd_config_t :=
  {| task_priority := task_priority c; stack_size := stack_size c;
     server_port := p; ctrl_port := ctrl_port c;
     max_open_sockets := max_open_sockets c;
     max_uri_handlers := max_uri_handlers c |}.

(** Calls of [index_handler] and [startCameraServer] into their
    collaborators. *)
Inductive srv_event :=
| SrvSetType (type : string) (r : esp_err_t)
    (* httpd_resp_set_type *)
| SrvSetHdr (field value : string) (r : esp_err_t)
    (* httpd_resp_set_hdr *)
| SrvSend (data : list byte) (n : Z) (r : esp_err_t)
    (* httpd_resp_send *)
| SrvPrintf (text : string)
    (* Serial.printf *)
| SrvStart (config : httpd_config_t) (r : esp_err_t) (h : httpd_handle_t)
    (* httpd_start; [h] is what the handle holds afterwards *)
| SrvRegister (server : httpd_handle_t) (u : httpd_uri_t) (r : esp_err_t).
    (* httpd_register_uri_handler *)

(** What the transport answers to [index_handler]. *)
Record index_env := {
  ix_set_type : esp_err_t;
  ix_set_hdr : esp_err_t;
  ix_send : esp_err_t
}.

(** Lines 117-122. *)
Definition index_handler (e : index_env) : esp_err_t * list srv_event :=
  let r := ix_send e in
  (r,
   [SrvSetType "text/html" (ix_set_type e);
    SrvSetHdr "Content-Encoding" "identity" (ix_set_hdr e);
    SrvSend (bytes_of INDEX_HTML) (Z.of_nat (strlen INDEX_HTML)) r]).

(** What the HTTP server library answers to [startCameraServer]:
    [httpd_start] gets the configuration and what the handle held, and
    gives its status and what the handle holds afterwards; the two
    registrations are answered in turn. *)
Record start_env := {
  httpd_start : httpd_config_t -> httpd_handle_t -> esp_err_t * httpd_handle_t;
  httpd_register_uri_handler : httpd_uri_t -> esp_err_t
}.

Definition index_uri : httpd_uri_t :=
  {| uri := "/"; method := HTTP_GET; handler := Index_handler;
     user_ctx := None |}.

Definition stream_uri : httpd_uri_t :=
  {| uri := "/stream"; method := HTTP_GET; handler := Stream_handler;
     user_ctx := None |}.

(** Lines 124-148.  [HTTPD_DEFAULT_CONFIG] is the library's; the global
    [stream_httpd] goes in and comes out. *)
Definition startCameraServer (HTTPD_DEFAULT_CONFIG : httpd_config_t)
    (stream_httpd : httpd_handle_t) (e : start_env)
  : httpd_handle_t * list srv_event :=
  let config := set_server_port 80 HTTPD_DEFAULT_CONFIG in
  let msg :=
    vformat ("Starting web server on port: '%d'" ++ String LF "")%string
      [server_port config] in
  let (r, h) := httpd_start e config stream_httpd in
  if ok r then
    (h,
     [SrvPrintf msg; SrvStart config r h;
      SrvRegister h index_uri (httpd_register_uri_handler e index_uri);
      SrvRegister h stream_uri (httpd_register_uri_handler e stream_uri)])
  else
    (h, [SrvPrintf msg; SrvStart config r h]).

(** The URI handlers a trace registers, in order. *)
Fixpoint registered (t : list srv_event) : list httpd_uri_t :=
  match t with
  | [] => []
  | SrvRegister _ u _ :: t' => u :: registered t'
  | _ :: t' => registered t'
  end.

(** Characters up to the first [c]. *)
Fixpoint upto (c : ascii) (s : string) : string :=
  match s with
  | EmptyString => EmptyString
  | String x rest =>
      if Ascii.eqb x c then EmptyString else String x (upto c rest)
  end.

(** Value of the first attribute [name="..."] in a page. *)
Definition attr_value (name : string) (page : string) : option string :=
  let key := (name ++ "=" ++ String DQ "")%string in
  match index 0 key page with
  | Some m =>
      let from := (m + String.length key)%nat in
      Some (upto DQ (substring from (String.length page - from) page))
  | None => None
  end.

(** ** More vocabulary *)

Definition is_delay (ev : event) : bool :=
  match ev with EvDelay _ => true | _ => false end.

(** [n] complete parts, as call sites. *)
Fixpoint whole_parts (n : nat) : list chunk_site :=
  match n with
  | O => []
  | S n' => Boundary :: Header :: Payload :: whole_parts n'
  end.

(** A frame arrives, is not JPEG, and the encoder takes it. *)
Definition encodes (e : iter_env) (f : camera_fb_t) (b : buffer) (n : Z)
  : Prop :=
  esp_camera_fb_get e = Some f /\ is_jpeg (format f) = false /\
  frame2jpg e f 80 = Some (b, n).

(** What a trace puts on the wire: for every chunk write, where it was
    made, the bytes it took from its buffer, and what the transport
    answered. *)
Fixpoint wire (t : list event) : list (chunk_site * list byte * esp_err_t) :=
  match t with
  | [] => []
  | EvSendChunk site d n r :: t' => (site, chunk_bytes d n, r) :: wire t'
  | _ :: t' => wire t'
  end.

(** The JPEG bytes and length an iteration has in hand once a frame has
    arrived and, if need be, been encoded. *)
Definition jpeg_in_hand (e : iter_env) : option (camera_fb_t * list byte * Z) :=
  match esp_camera_fb_get e with
  | None => None
  | Some f =>
      if is_jpeg (format f) then Some (f, bytes (buf f), len f)
      else
        match frame2jpg e f 80 with
        | Some (b, n) => Some (f, bytes b, n)
        | None => None
        end
  end.

(** What one iteration puts on the wire, read off the environment
    alone. *)
Definition pass_wire (e : iter_env)
  : list (chunk_site * list byte * esp_err_t) :=
  match jpeg_in_hand e with
  | None => []
  | Some (f, data, n) =>
      let rB := httpd_resp_send_chunk e Boundary in
      let rH := httpd_resp_send_chunk e Header in
      let rP := httpd_resp_send_chunk e Payload in
      (Boundary, bytes_of _STREAM_BOUNDARY, rB)
      :: if ok rB then
           (Header,
            bytes_of (part_header n (tv_sec (timestamp f))
                        (tv_usec (timestamp f))), rH)
           :: if ok rH then [(Payload, firstn (Z.to_nat n) data, rP)]
              else []
         else []
  end.

(** The status one iteration ends with, read off the environment
    alone. *)
Definition pass_res (e : iter_env) : esp_err_t :=
  match jpeg_in_hand e with
  | None => ESP_FAIL
  | Some _ =>
      match first_failed_write e with
      | Some site => httpd_resp_send_chunk e site
      | None => httpd_resp_send_chunk e Payload
      end
  end.

Module SampleServer.

Definition default_config : httpd_config_t :=
  {| task_priority := 5; stack_size := 4096; server_port := 8080;
     ctrl_port := 32768; max_open_sockets := 7; max_uri_handlers := 8 |}.

Definition starts : start_env :=
  {| httpd_start := fun _ _ => (ESP_OK, Some 1073500000);
     httpd_register_uri_handler := fun _ => ESP_OK |}.

Definition port_taken : start_env :=
  {| httpd_start := fun _ h => (ESP_FAIL, h);
     httpd_register_uri_handler := fun _ => ESP_OK |}.

Definition served : index_env :=
  {| ix_set_type := ESP_OK; ix_set_hdr := ESP_OK; ix_send := ESP_OK |}.

End SampleServer.

(** * Properties *)

(** ** Decimal conversions *)

Module Fmt.

Lemma str_length_app (a b : string) :
  String.length (a ++ b) = (String.length a + String.length b)%nat.
Proof. induction a as [|c a IH]; simpl; [reflexivity | now rewrite IH]. Qed.

Lemma str_app_assoc (a b c : string) : ((a ++ b) ++ c = a ++ (b ++ c))%string.
Proof. induction a as [|x a IH]; simpl; [reflexivity | now rewrite IH]. Qed.

Lemma bytes_of_length (s : string) :
  List.length (bytes_of s) = String.length s.
Proof.
  unfold bytes_of, list_byte_of_string. rewrite length_map.
  induction s as [|c s IH]; simpl; [reflexivity | now rewrite IH].
Qed.

Lemma atou_aux_app (a : Z) (s t : string) :
  atou_aux a (s ++ t) = atou_aux (atou_aux a s) t.
Proof. revert a; induction s as [|c s IH]; intros a; simpl; auto. Qed.

Lemma all_digits_app (s t : string) :
  all_digits (s ++ t) = all_digits s && all_digits t.
Proof.
  induction s as [|c s IH]; simpl; [reflexivity|].
  now rewrite IH, andb_assoc.
Qed.

Lemma digit_val_char (d : Z) : 0 <= d <= 9 -> digit_val (digit_char d) = d.
Proof.
  intros H. unfold digit_val, digit_char.
  rewrite nat_ascii_embedding by lia. lia.
Qed.

Lemma is_digit_char (d : Z) : 0 <= d <= 9 -> is_digit (digit_char d) = true.
Proof.
  intros H. unfold is_digit. rewrite digit_val_char by assumption.
  apply andb_true_intro; split; apply Z.leb_le; lia.
Qed.

(** [utoa_aux] never produces more characters than it has fuel. *)
Lemma utoa_aux_length_fuel (fuel : nat) (x : Z) (acc : string) :
  (String.length (utoa_aux fuel x acc) <= fuel + String.length acc)%nat.
Proof.
  revert x acc; induction fuel as [|fuel IH]; intros x acc; simpl; [lia|].
  destruct (x / 10 =? 0); simpl; [lia|].
  specialize (IH (x / 10) (String (digit_char (x mod 10)) acc)).
  simpl in IH. lia.
Qed.

(** A number below [10^k] is printed with at most [k] digits. *)
Lemma utoa_aux_length_digits (fuel k : nat) (x : Z) (acc : string) :
  (1 <= k)%nat -> 0 <= x < 10 ^ Z.of_nat k ->
  (String.length (utoa_aux fuel x acc) <= k + String.length acc)%nat.
Proof.
  revert k x acc; induction fuel as [|fuel IH]; intros k x acc Hk Hx; simpl;
    [lia|].
  destruct (x / 10 =? 0) eqn:Hq; simpl; [lia|].
  apply Z.eqb_neq in Hq.
  destruct k as [|[|k]]; [lia | |].
  - exfalso. apply Hq. apply Z.div_small. simpl in Hx. lia.
  - specialize (IH (S k) (x / 10) (String (digit_char (x mod 10)) acc)).
    simpl String.length in IH.
    assert (10 ^ Z.of_nat (S (S k)) = 10 * 10 ^ Z.of_nat (S k)) as E.
    { rewrite (Nat2Z.inj_succ (S k)), Z.pow_succ_r by lia. reflexivity. }
    assert (0 <= x / 10 < 10 ^ Z.of_nat (S k)).
    { split; [apply Z.div_pos; lia|].
      apply Z.div_lt_upper_bound; lia. }
    specialize (IH ltac:(lia) ltac:(assumption)). lia.
Qed.

(** With enough fuel the digits printed are digits, and they denote the
    number. *)
Lemma utoa_aux_value (fuel : nat) (x : Z) (acc : string) :
  0 <= x < 10 ^ Z.of_nat fuel -> (1 <= fuel)%nat ->
  exists ds, utoa_aux fuel x acc = (ds ++ acc)%string /\
             all_digits ds = true /\
             forall a, atou_aux a ds = a * 10 ^ Z.of_nat (String.length ds) + x.
Proof.
  revert x acc; induction fuel as [|fuel IH]; intros x acc Hx Hf; [lia|].
  simpl utoa_aux.
  assert (0 <= x mod 10 <= 9) as Hd by (pose proof (Z.mod_pos_bound x 10); lia).
  destruct (x / 10 =? 0) eqn:Hq.
  - apply Z.eqb_eq in Hq.
    exists (String (digit_char (x mod 10)) "").
    split; [reflexivity|]. split.
    + cbn [all_digits]. now rewrite is_digit_char.
    + intros a. cbn [atou_aux String.length]. rewrite digit_val_char by assumption.
      pose proof (Z.div_mod x 10). change (Z.of_nat 1) with 1. lia.
  - apply Z.eqb_neq in Hq.
    destruct fuel as [|fuel].
    { exfalso. apply Hq. apply Z.div_small. simpl in Hx. lia. }
    assert (10 ^ Z.of_nat (S (S fuel)) = 10 * 10 ^ Z.of_nat (S fuel)) as E.
    { rewrite (Nat2Z.inj_succ (S fuel)), Z.pow_succ_r by lia. reflexivity. }
    assert (0 <= x / 10 < 10 ^ Z.of_nat (S fuel)) as Hx'.
    { split; [apply Z.div_pos; lia|].
      apply Z.div_lt_upper_bound; lia. }
    destruct (IH (x / 10) (String (digit_char (x mod 10)) acc) Hx'
                ltac:(lia)) as (ds & Eds & Hall & Hval).
    exists (ds ++ String (digit_char (x mod 10)) "")%string.
    split; [|split].
    + rewrite Eds, str_app_assoc. reflexivity.
    + rewrite all_digits_app, Hall. cbn [all_digits andb].
      now rewrite is_digit_char.
    + intros a. rewrite atou_aux_app, Hval. cbn [atou_aux].
      rewrite digit_val_char by assumption.
      rewrite str_length_app. cbn [String.length].
      replace (Z.of_nat (String.length ds + 1))
        with (Z.succ (Z.of_nat (String.length ds))) by lia.
      rewrite Z.pow_succ_r by lia.
      pose proof (Z.div_mod x 10). lia.
Qed.

Lemma append_empty_r (s : string) : (s ++ "")%string = s.
Proof. induction s as [|c s IH]; simpl; [reflexivity | now rewrite IH]. Qed.

(** [utoa] on a 32-bit value: digits only, and the digits of that
    value. *)
Lemma utoa_value (x : Z) :
  0 <= x < 2 ^ 32 -> all_digits (utoa x) = true /\ atou (utoa x) = x.
Proof.
  intros Hx. unfold utoa, atou.
  destruct (utoa_aux_value 10 x "") as (ds & E & Hall & Hval);
    [simpl; lia | lia |].
  rewrite E, append_empty_r. split; [assumption|].
  rewrite Hval. lia.
Qed.

Lemma utoa_length_le_10 (x : Z) : (String.length (utoa x) <= 10)%nat.
Proof.
  unfold utoa. pose proof (utoa_aux_length_fuel 10 x ""). simpl in *. lia.
Qed.

Lemma utoa_length_le (k : nat) (x : Z) :
  (1 <= k)%nat -> 0 <= x < 10 ^ Z.of_nat k ->
  (String.length (utoa x) <= k)%nat.
Proof.
  intros Hk Hx. unfold utoa.
  pose proof (utoa_aux_length_digits 10 k x "" Hk Hx). simpl in *. lia.
Qed.

Lemma zeros_length (n : nat) : String.length (zeros n) = n.
Proof. induction n; simpl; congruence. Qed.

Lemma zeros_digits (n : nat) : all_digits (zeros n) = true.
Proof. induction n; simpl; auto. Qed.

Lemma zeros_value (n : nat) : atou_aux 0 (zeros n) = 0.
Proof. induction n; simpl; auto. Qed.

Lemma pad0_length (w : nat) (s : string) :
  (String.length s <= w)%nat -> String.length (pad0 w s) = w.
Proof.
  intros H. unfold pad0. rewrite str_length_app, zeros_length. lia.
Qed.

Lemma pad0_length_le (w : nat) (s : string) :
  (String.length (pad0 w s) <= Nat.max w (String.length s))%nat.
Proof. unfold pad0. rewrite str_length_app, zeros_length. lia. Qed.

Lemma to_uint32_id (v : Z) : 0 <= v < 2 ^ 32 -> to_uint32 v = v.
Proof. intros H. unfold to_uint32. apply Z.mod_small. assumption. Qed.

Lemma to_sint32_id (v : Z) : - 2 ^ 31 <= v < 2 ^ 31 -> to_sint32 v = v.
Proof.
  intros H. unfold to_sint32. rewrite Z.mod_small; lia.
Qed.

Lemma to_sint32_range (v : Z) : - 2 ^ 31 <= to_sint32 v < 2 ^ 31.
Proof.
  unfold to_sint32. pose proof (Z.mod_pos_bound (v + 2 ^ 31) (2 ^ 32)). lia.
Qed.

(** [%u] of a [size_t]: the decimal digits of the value. *)
Lemma fmt_u_value (n : Z) :
  size_ok n -> all_digits (fmt_u n) = true /\ atou (fmt_u n) = n.
Proof.
  intros H. unfold fmt_u. rewrite to_uint32_id by exact H.
  apply utoa_value. exact H.
Qed.

(** [%d] of a non-negative [int]: the decimal digits of the value. *)
Lemma fmt_d_value (v : Z) :
  0 <= v < 2 ^ 31 -> all_digits (fmt_d v) = true /\ atou (fmt_d v) = v.
Proof.
  intros H. unfold fmt_d. rewrite to_sint32_id by lia.
  destruct (v <? 0) eqn:E; [apply Z.ltb_lt in E; lia|].
  apply utoa_value. lia.
Qed.

(** [%06d] of a microsecond count: exactly six digits, zero-padded. *)
Lemma fmt_06d_usec (u : Z) :
  0 <= u < 1000000 ->
  String.length (fmt_0d 6 u) = 6%nat /\
  all_digits (fmt_0d 6 u) = true /\
  atou (fmt_0d 6 u) = u.
Proof.
  intros H. unfold fmt_0d. rewrite to_sint32_id by lia.
  destruct (u <? 0) eqn:E; [apply Z.ltb_lt in E; lia|].
  destruct (utoa_value u ltac:(lia)) as [Hall Hval].
  split; [|split].
  - apply pad0_length. apply utoa_length_le; [lia | simpl; lia].
  - unfold pad0. rewrite all_digits_app, zeros_digits, Hall. reflexivity.
  - unfold pad0, atou. rewrite atou_aux_app, zeros_value. exact Hval.
Qed.

Lemma fmt_u_length (v : Z) : (String.length (fmt_u v) <= 10)%nat.
Proof. apply utoa_length_le_10. Qed.

Lemma fmt_d_length (v : Z) : (String.length (fmt_d v) <= 11)%nat.
Proof.
  unfold fmt_d. destruct (to_sint32 v <? 0); simpl;
    pose proof (utoa_length_le_10 (to_sint32 v));
    pose proof (utoa_length_le_10 (- to_sint32 v)); lia.
Qed.

Lemma fmt_06d_length (v : Z) : (String.length (fmt_0d 6 v) <= 11)%nat.
Proof.
  unfold fmt_0d. destruct (to_sint32 v <? 0); simpl String.length.
  - pose proof (pad0_length_le 5 (utoa (- to_sint32 v))).
    pose proof (utoa_length_le_10 (- to_sint32 v)). simpl Nat.sub. lia.
  - pose proof (pad0_length_le 6 (utoa (to_sint32 v))).
    pose proof (utoa_length_le_10 (to_sint32 v)). lia.
Qed.

(** What [snprintf] makes of [_STREAM_PART]. *)
Lemma vformat_stream_part (n sec usec : Z) :
  vformat _STREAM_PART [n; sec; usec] = part_header n sec usec.
Proof. reflexivity. Qed.

(** The part header always fits the 128 bytes [snprintf] is given. *)
Lemma part_header_length (n sec usec : Z) :
  (String.length (part_header n sec usec) <= 94)%nat.
Proof.
  unfold part_header.
  repeat (rewrite str_length_app || simpl String.length).
  pose proof (fmt_u_length n). pose proof (fmt_d_length sec).
  pose proof (fmt_06d_length usec). lia.
Qed.

(** [snprintf] reports the length of the whole text, whatever the size
    of the buffer. *)
Lemma snprintf_returns (pb : list byte) (size : nat) (fmt : string)
    (args : list Z) :
  snd (snprintf pb size fmt args)
  = Z.of_nat (String.length (vformat fmt args)).
Proof. unfold snprintf. cbn [snd]. now rewrite bytes_of_length. Qed.

(** [snprintf] stores nothing at or beyond index [size]. *)
Lemma snprintf_beyond (pb : list byte) (size : nat) (fmt : string)
    (args : list Z) (i : nat) :
  (size <= i)%nat ->
  nth_error (fst (snprintf pb size fmt args)) i = nth_error pb i.
Proof.
  intros Hi. unfold snprintf. cbn [fst].
  set (w := match size with O => [] | S m => _ end).
  assert (List.length w <= size)%nat as Hw.
  { subst w. destruct size as [|m]; cbn [List.length]; [lia|].
    rewrite length_app, length_firstn. cbn [List.length]. lia. }
  rewrite nth_error_app2 by lia.
  rewrite nth_error_skipn. f_equal. lia.
Qed.

(** A text shorter than [size] is stored whole. *)
Lemma snprintf_fits (pb : list byte) (size : nat) (fmt : string)
    (args : list Z) :
  (String.length (vformat fmt args) < size)%nat ->
  firstn (String.length (vformat fmt args)) (fst (snprintf pb size fmt args))
  = bytes_of (vformat fmt args).
Proof.
  intros H. unfold snprintf. cbn [fst].
  destruct size as [|m]; [lia|].
  rewrite <- bytes_of_length in *.
  rewrite (firstn_all2 (n := m)) by lia.
  rewrite <- !List.app_assoc.
  rewrite firstn_app, firstn_all, Nat.sub_diag. cbn [firstn].
  apply List.app_nil_r.
Qed.

(** [snprintf] leaves a buffer of at least [size] bytes as long as it
    was. *)
Lemma snprintf_length (pb : list byte) (size : nat) (fmt : string)
    (args : list Z) :
  (size <= List.length pb)%nat ->
  List.length (fst (snprintf pb size fmt args)) = List.length pb.
Proof.
  intros Hs. unfold snprintf. cbn [fst].
  set (w := match size with O => [] | S m => _ end).
  assert (List.length w <= size)%nat as Hw.
  { subst w. destruct size as [|m]; cbn [List.length]; [lia|].
    rewrite List.length_app, length_firstn. cbn [List.length]. lia. }
  rewrite List.length_app, length_skipn. lia.
Qed.

End Fmt.

#[local] Opaque snprintf.

(** ** The loop body *)

Lemma ok_true (r : esp_err_t) : ok r = true -> r = ESP_OK.
Proof. unfold ok. apply Z.eqb_eq. Qed.

Lemma ok_false (r : esp_err_t) : ok r = false -> r <> ESP_OK.
Proof. unfold ok. apply Z.eqb_neq. Qed.

#[local] Arguments snprintf : simpl never.
#[local] Arguments bytes_of : simpl never.
#[local] Arguments _STREAM_BOUNDARY : simpl never.
#[local] Arguments _STREAM_PART : simpl never.
#[local] Arguments _STREAM_CONTENT_TYPE : simpl never.
#[local] Arguments String.length : simpl never.

Lemma ok_ESP_FAIL : ok ESP_FAIL = false.
Proof. reflexivity. Qed.

(** Run the statements of the loop body on the locals at hand, without
    looking into the header formatting. *)
Ltac run_stmts :=
  cbv beta iota zeta delta
    [loop_body seq acquire send_boundary send_header send_payload release
     set_fb set_timestamp set_res set_jpg set_jpg_buf set_part_buf
     fb _timestamp res _jpg_buf_len _jpg_buf part_buf
     negb app option_map];
  cbn [fst snd].

(** Discard the cases that contradict what is known about the
    environment, and identify what the remaining ones name twice. *)
Ltac known_cases :=
  try congruence;
  repeat match goal with
    | H : Some _ = Some _ |- _ => injection H as; subst
    | H : (_, _) = (_, _) |- _ => injection H as; subst
    end.

(** Case analysis over everything the loop body branches on: what the
    frame source and the encoder answer, whether [res] is [ESP_OK] on
    entry, which writes the transport accepts and, on the paths that
    store no JPEG buffer, whether [_jpg_buf] was null on entry. *)
Ltac body_cases e s :=
  let Hget := fresh "Hget" in
  let Hfmt := fresh "Hfmt" in
  let Henc := fresh "Henc" in
  let Hres := fresh "Hres" in
  let HwB := fresh "HwB" in
  let HwH := fresh "HwH" in
  let s_fb := fresh "s_fb" in
  let s_ts := fresh "s_ts" in
  let s_res := fresh "s_res" in
  let s_len := fresh "s_len" in
  let s_jpg := fresh "s_jpg" in
  let s_pb := fresh "s_pb" in
  destruct s as [s_fb s_ts s_res s_len s_jpg s_pb];
  cbn [fb _timestamp res _jpg_buf_len _jpg_buf part_buf] in *;
  destruct (esp_camera_fb_get e) as [?f|] eqn:Hget; known_cases;
  try (match type of Hget with
       | _ = Some ?f => destruct (is_jpeg (format f)) eqn:Hfmt
       end);
  known_cases;
  try (match type of Hfmt with
       | _ = false =>
           match type of Hget with
           | _ = Some ?f =>
               destruct (frame2jpg e f 80) as [[?b ?n]|] eqn:Henc
           end
       end);
  known_cases;
  try (first [ match type of Hget with _ = None => idtac end
             | match type of Henc with _ = None => idtac end ];
       destruct s_jpg as [?b|]);
  destruct (ok s_res) eqn:Hres; known_cases;
  destruct (ok (httpd_resp_send_chunk e Boundary)) eqn:HwB; known_cases;
  destruct (ok (httpd_resp_send_chunk e Header)) eqn:HwH; known_cases;
  repeat (progress
            (run_stmts;
             rewrite ?Hget, ?Hfmt, ?Henc, ?Hres, ?HwB, ?HwH,
               ?ok_ESP_FAIL)).

(** Pick the one event of a concrete trace that a membership
    hypothesis can be about. *)
Ltac pick_event H :=
  cbn [In] in H;
  repeat (destruct H as [H|H]; try discriminate H);
  try contradiction;
  try injection H as; subst.

(** The release block leaves no pointer behind, whatever happened
    before it. *)
Lemma loop_body_ptrs_null (e : iter_env) (s : locals) :
  ptrs_null (fst (loop_body e s)).
Proof.
  body_cases e s; split; reflexivity.
Qed.

(** ** The loop *)

Section Loop.

Variable tick : Z.

(** Whenever the loop is left or runs out of fuel, no pointer local
    refers to a buffer, provided none did on entry. *)
Lemma stream_loop_ptrs_null (fuel : nat) (it : nat -> iter_env) (i : nat)
    (s : locals) :
  ptrs_null s -> ptrs_null (snd (fst (stream_loop tick fuel it i s))).
Proof.
  revert i s; induction fuel as [|fuel IH]; intros i s Hs; [exact Hs|].
  cbn [stream_loop].
  pose proof (loop_body_ptrs_null (it i) s) as Hb.
  destruct (loop_body (it i) s) as [s1 t1]. cbn [fst] in Hb.
  destruct (negb (ok (res s1))); [exact Hb|].
  specialize (IH (S i) s1 Hb).
  destruct (stream_loop tick fuel it (S i) s1) as [[r s2] t2]. exact IH.
Qed.

End Loop.

(** C10.  At the head of the loop before every iteration, and when the
    handler returns, both [fb] and [_jpg_buf] are null.  ([final] of a
    run is the locals at the return, or at the head of the loop where a
    run of [fuel] iterations stopped, so every [fuel] covers every
    iteration.)  Besides, one pass through the loop body ends with both
    pointers null from any state at all. *)
Theorem stream_handler_ptrs_null :
  (forall (tick : Z) (fuel : nat) (E : env) (ts0 : timeval) (pb0 : list byte),
      ptrs_null (final (stream_handler tick fuel E ts0 pb0))) /\
  (forall (e : iter_env) (s : locals), ptrs_null (fst (loop_body e s))).
Proof.
  split; [|exact loop_body_ptrs_null].
  intros tick fuel E ts0 pb0. unfold stream_handler.
  destruct (negb (ok (res (set_res (httpd_resp_set_type E)
                             (init_locals ts0 pb0))))).
  - split; reflexivity.
  - pose proof (stream_loop_ptrs_null tick fuel (iters E) 0
                  (set_res (httpd_resp_set_type E) (init_locals ts0 pb0))) as H.
    destruct (stream_loop tick fuel (iters E) 0 _) as [[r s'] t].
    apply H. split; reflexivity.
Qed.

(** Exhibit the events in front of an adjacent pair in a concrete
    trace. *)
Ltac split_trace :=
  unfold next_to;
  first
    [ exists []; eexists; reflexivity
    | eexists [_]; eexists; reflexivity
    | eexists [_; _]; eexists; reflexivity
    | eexists [_; _; _]; eexists; reflexivity
    | eexists [_; _; _; _]; eexists; reflexivity
    | eexists [_; _; _; _; _]; eexists; reflexivity ].

(** C5.  In one pass through the loop body the chunk writes come in the
    order boundary, header, payload, each at most once; the boundary is
    written only if a frame was acquired and, when it was not JPEG,
    encoded; the header only directly after a boundary write that
    returned [ESP_OK]; the payload only directly after a header write
    that returned [ESP_OK]. *)
Theorem loop_body_write_order (e : iter_env) (s : locals) :
  let t := snd (loop_body e s) in
  (sites_of t = [] \/ sites_of t = [Boundary] \/
   sites_of t = [Boundary; Header] \/
   sites_of t = [Boundary; Header; Payload]) /\
  (forall d n r, In (EvSendChunk Boundary d n r) t ->
     payload_ready e <> None) /\
  (forall d n r, In (EvSendChunk Header d n r) t ->
     exists d0 n0,
       next_to (EvSendChunk Boundary d0 n0 ESP_OK)
               (EvSendChunk Header d n r) t) /\
  (forall d n r, In (EvSendChunk Payload d n r) t ->
     exists d0 n0,
       next_to (EvSendChunk Header d0 n0 ESP_OK)
               (EvSendChunk Payload d n r) t).
Proof.
  unfold payload_ready.
  body_cases e s.
  all: try apply ok_true in HwB; try apply ok_true in HwH;
    try rewrite HwB; try rewrite HwH.
  all: (split; [cbn; first [now left | now (right; left)
                         | now (right; right; left) | now (do 3 right)]|]).
  all: (split; [intros d0 n0 r0 H; pick_event H; discriminate|]).
  all: split; intros d0 n0 r0 H; pick_event H.
  all: do 2 eexists; split_trace.
Qed.

(** C3.  When the frame acquired is not JPEG, the loop body calls the
    encoder on it at quality 80 and hands the frame back to the frame
    source directly after that call, whatever the encoder answered.
    When the encoder fails, no chunk is written in that pass, [res]
    ends up [ESP_FAIL], and the loop is left with [ESP_FAIL] as the
    result. *)
Theorem non_jpeg_frame_encoded (tick : Z) (fuel : nat)
    (it : nat -> iter_env) (i : nat) (s : locals) (f : camera_fb_t) :
  esp_camera_fb_get (it i) = Some f ->
  is_jpeg (format f) = false ->
  let e := it i in
  let t := snd (loop_body e s) in
  (exists rest,
      t = EvFbGet (Some f) :: EvFrame2Jpg f 80 (frame2jpg e f 80)
          :: EvFbReturn f :: rest /\
      forall ev, In ev rest -> is_encode_call ev = false) /\
  (frame2jpg e f 80 = None ->
     (forall ev, In ev t -> is_chunk ev = false) /\
     res (fst (loop_body e s)) = ESP_FAIL /\
     stream_loop tick (S fuel) it i s
     = (Some ESP_FAIL, fst (loop_body e s), t)).
Proof.
  intros Hf Hj e t. subst t e. cbn [stream_loop].
  generalize dependent (it i). intros e Hf.
  body_cases e s.
  all: split;
    [ eexists; split; [reflexivity|];
      intros ev H; pick_event H; reflexivity
    | intros Hn; try discriminate Hn ].
  all: split; [intros ev H; pick_event H; reflexivity|].
  all: split; reflexivity.
Qed.

(** C4.  When the frame acquired is already JPEG, the events of the pass
    are the acquisition, then chunk writes only (no encoder call, no
    release), then the return of the frame to the frame source as the
    last event; a payload write, if there is one, is given the frame's
    own buffer and length, and there is one as soon as [res] was
    [ESP_OK] on entry and the boundary and header writes succeed. *)
Theorem jpeg_frame_passed_through (e : iter_env) (s : locals)
    (f : camera_fb_t) :
  esp_camera_fb_get e = Some f ->
  is_jpeg (format f) = true ->
  let t := snd (loop_body e s) in
  (exists sends,
      t = EvFbGet (Some f) :: sends ++ [EvFbReturn f] /\
      forall ev, In ev sends -> is_chunk ev = true) /\
  (forall d n r, In (EvSendChunk Payload d n r) t ->
      d = Some (bytes (buf f)) /\ n = len f /\
      (len f = Z.of_nat (List.length (bytes (buf f))) ->
       chunk_bytes d n = bytes (buf f))) /\
  (ok (res s) = true ->
   ok (httpd_resp_send_chunk e Boundary) = true ->
   ok (httpd_resp_send_chunk e Header) = true ->
   In (EvSendChunk Payload (Some (bytes (buf f))) (len f)
         (httpd_resp_send_chunk e Payload)) t).
Proof.
  intros Hf Hj t. subst t.
  body_cases e s.
  all: split;
    [ first [ exists []; split; [reflexivity|]
            | eexists [_]; split; [reflexivity|]
            | eexists [_; _]; split; [reflexivity|]
            | eexists [_; _; _]; split; [reflexivity|] ];
      intros ev H; pick_event H; reflexivity | split ].
  all: try (intros d0 n0 r0 H; pick_event H;
            repeat (split; [reflexivity|]);
            intros Hlen; cbn [chunk_bytes];
            rewrite Hlen, Nat2Z.id; apply firstn_all).
  all: intros; try discriminate; cbn [In]; tauto.
Qed.

(** C9.  A header write is given what [snprintf] returned as its length,
    unchecked and unclamped: the length of the whole formatted header,
    not of what the 128 bytes could take.  [snprintf] stores nothing at
    index 128 or beyond, so any such byte of the chunk is what
    [part_buf] held before.  (With 32-bit arguments the header is at
    most 94 characters long.) *)
Theorem header_length_unchecked (e : iter_env) (s : locals)
    (d : option (list byte)) (n : Z) (r : esp_err_t) :
  In (EvSendChunk Header d n r) (snd (loop_body e s)) ->
  exists f plen,
    esp_camera_fb_get e = Some f /\
    let args := [plen; tv_sec (timestamp f); tv_usec (timestamp f)] in
    let p := snprintf (part_buf s) 128 _STREAM_PART args in
    d = Some (fst p) /\
    n = snd p /\
    n = Z.of_nat (String.length (vformat _STREAM_PART args)) /\
    (forall i, (128 <= i)%nat ->
               nth_error (fst p) i = nth_error (part_buf s) i) /\
    n <= 94.
Proof.
  body_cases e s; intros H; pick_event H.
  all: eexists; eexists; split; [reflexivity|]; cbv zeta;
    split; [reflexivity|]; split; [reflexivity|];
    split; [apply Fmt.snprintf_returns|];
    split; [intros i Hi; apply Fmt.snprintf_beyond; exact Hi|];
    rewrite Fmt.snprintf_returns, Fmt.vformat_stream_part;
    match goal with
    | |- context [part_header ?a ?b ?c] =>
        pose proof (Fmt.part_header_length a b c)
    end; lia.
Qed.

(** The bytes of a header chunk are the formatted header: it always
    fits the 128 bytes. *)
Lemma header_chunk_bytes (pb : list byte) (n sec usec : Z) :
  let p := snprintf pb 128 _STREAM_PART [n; sec; usec] in
  chunk_bytes (Some (fst p)) (snd p) = bytes_of (part_header n sec usec).
Proof.
  cbv zeta. cbn [chunk_bytes].
  rewrite Fmt.snprintf_returns, Nat2Z.id.
  rewrite Fmt.snprintf_fits; rewrite Fmt.vformat_stream_part;
    [reflexivity|].
  pose proof (Fmt.part_header_length n sec usec). lia.
Qed.

(** C1.  A payload write of a pass of the loop body comes directly after
    a header write that returned [ESP_OK], and the header sent there
    reads [Content-Type: image/jpeg], [Content-Length: N] and
    [X-Timestamp: S.U], each line ended by CR LF and the last followed
    by an empty line, where [N] is the decimal numeral of the length
    argument of that payload write, [S] the decimal numeral of the
    seconds of the frame's timestamp, and [U] its microseconds in
    exactly six digits.  (Frames and encoder outputs carry values of the
    32-bit target: a length below 2^32, non-negative seconds below
    2^31, microseconds below 1000000.) *)
Theorem content_length_matches_payload (e : iter_env) (s : locals)
    (d : option (list byte)) (n : Z) (r : esp_err_t) :
  iter_env_ok e ->
  In (EvSendChunk Payload d n r) (snd (loop_body e s)) ->
  exists f hb hlen N S U,
    esp_camera_fb_get e = Some f /\
    next_to (EvSendChunk Header (Some hb) hlen ESP_OK)
            (EvSendChunk Payload d n r) (snd (loop_body e s)) /\
    chunk_bytes (Some hb) hlen
    = bytes_of ("Content-Type: image/jpeg" ++ CRLF ++
                "Content-Length: " ++ N ++ CRLF ++
                "X-Timestamp: " ++ S ++ "." ++ U ++ CRLF ++ CRLF) /\
    all_digits N = true /\ atou N = n /\
    all_digits S = true /\ atou S = tv_sec (timestamp f) /\
    String.length U = 6%nat /\ all_digits U = true /\
    atou U = tv_usec (timestamp f).
Proof.
  intros [Hfr Hen].
  body_cases e s; intros H; pick_event H.
  all: specialize (Hfr _ eq_refl); destruct Hfr as [Hlen [Hsec Husec]].
  all: try (pose proof (Hen _ _ _ _ Henc) as Hn).
  all: match goal with
       | |- context [snprintf ?pb _ _ [?a; ?b; ?c]] =>
           exists f, (fst (snprintf pb 128 _STREAM_PART [a; b; c])),
             (snd (snprintf pb 128 _STREAM_PART [a; b; c])),
             (fmt_u a), (fmt_d b), (fmt_0d 6 c);
           pose proof (Fmt.fmt_u_value a ltac:(assumption)) as [? ?];
           pose proof (Fmt.fmt_d_value b Hsec) as [? ?];
           pose proof (Fmt.fmt_06d_usec c Husec) as (? & ? & ?)
       end.
  all: split; [reflexivity|].
  all: split; [apply ok_true in HwH; rewrite HwH; split_trace|].
  all: split; [apply header_chunk_bytes|].
  all: repeat (split; [assumption|]); assumption.
Qed.

(** ** Traces *)

Lemma own_run_app (o : owned) (t1 t2 : list event) :
  own_run o (t1 ++ t2)
  = match own_run o t1 with
    | Some o' => own_run o' t2
    | None => None
    end.
Proof.
  revert o; induction t1 as [|ev t1 IH]; intros o; cbn [own_run app];
    [reflexivity|].
  destruct (own_step o ev); [apply IH | reflexivity].
Qed.

Lemma count_app (p : event -> bool) (t1 t2 : list event) :
  count p (t1 ++ t2) = (count p t1 + count p t2)%nat.
Proof. unfold count. now rewrite filter_app, List.length_app. Qed.

Lemma count_cons (p : event -> bool) (ev : event) (t : list event) :
  count p (ev :: t) = ((if p ev then 1 else 0) + count p t)%nat.
Proof. unfold count. cbn [filter]. destruct (p ev); reflexivity. Qed.

Lemma last_status_app (t1 t2 : list event) :
  last_status (t1 ++ t2)
  = match last_status t2 with
    | Some r => Some r
    | None => last_status t1
    end.
Proof.
  induction t1 as [|ev t1 IH]; cbn [last_status app].
  - destruct (last_status t2); reflexivity.
  - rewrite IH. destruct (last_status t2); reflexivity.
Qed.

Lemma last_status_in (t : list event) (r : esp_err_t) :
  last_status t = Some r -> exists ev, In ev t /\ op_status ev = Some r.
Proof.
  induction t as [|ev t IH]; cbn [last_status]; [discriminate|].
  destruct (last_status t) as [r'|].
  - intros H. destruct (IH H) as (ev' & Hin & Hst).
    exists ev'. split; [right; exact Hin | exact Hst].
  - intros H. exists ev. split; [left; reflexivity | exact H].
Qed.

(** ** One pass through the loop body, as seen from a run *)

(** The pass ends with [res = ESP_OK] exactly when the environment lets
    nothing fail in it. *)
Lemma loop_body_ok (e : iter_env) (s : locals) :
  ok (res s) = true -> ok (res (fst (loop_body e s))) = iter_ok e.
Proof.
  unfold iter_ok, payload_ready, first_failed_write.
  body_cases e s; intros _; cbn [negb];
    destruct (ok (httpd_resp_send_chunk e Payload)); reflexivity.
Qed.

(** The status left in [res] is the status of the last operation of the
    pass. *)
Lemma loop_body_last_status (e : iter_env) (s : locals) :
  ok (res s) = true ->
  last_status (snd (loop_body e s)) = Some (res (fst (loop_body e s))).
Proof.
  body_cases e s; intros _; reflexivity.
Qed.

(** Run the ownership monitor over a concrete trace. *)
Ltac run_monitor :=
  cbn [own_run own_step held_fb held_jpg nothing_held];
  repeat (match goal with
          | |- context [camera_fb_eq_dec ?a ?a] =>
              destruct (camera_fb_eq_dec a a); [|congruence]
          | |- context [buffer_eq_dec ?a ?a] =>
              destruct (buffer_eq_dec a a); [|congruence]
          end;
          cbn [own_run own_step held_fb held_jpg nothing_held]).

(** A pass that starts owning nothing follows the ownership protocol
    and ends owning nothing. *)
Lemma loop_body_owns (e : iter_env) (s : locals) :
  ptrs_null s ->
  own_run nothing_held (snd (loop_body e s)) = Some nothing_held.
Proof.
  intros [Hfb Hjb].
  body_cases e s; try discriminate Hjb;
    run_monitor; reflexivity.
Qed.

(** A pass that starts owning nothing returns as many frames as it
    acquired and frees as many buffers as the encoder allocated. *)
Lemma loop_body_counts (e : iter_env) (s : locals) :
  ptrs_null s ->
  count is_acquired (snd (loop_body e s))
  = count is_fb_return (snd (loop_body e s)) /\
  count is_encoded (snd (loop_body e s))
  = count is_free (snd (loop_body e s)).
Proof.
  intros [Hfb Hjb].
  body_cases e s; try discriminate Hjb; split; reflexivity.
Qed.

(** A pass in which nothing fails emits one part. *)
Lemma loop_body_part (e : iter_env) (s : locals) :
  ok (res s) = true -> iter_ok e = true ->
  parts_emitted (snd (loop_body e s)) = 1%nat.
Proof.
  unfold iter_ok, payload_ready, first_failed_write.
  body_cases e s; intros _; cbn [negb]; try discriminate;
    destruct (ok (httpd_resp_send_chunk e Payload)) eqn:HwP;
    cbn [negb]; try discriminate; intros _;
    unfold parts_emitted, count; cbn [filter is_part_end];
    rewrite HwP; reflexivity.
Qed.

(** A pass never touches the content type or the headers. *)
Lemma loop_body_no_preamble (e : iter_env) (s : locals) :
  count is_preamble (snd (loop_body e s)) = 0%nat.
Proof. body_cases e s; reflexivity. Qed.

(** A pass in which a buffer is in hand and a write fails: the writes
    after the failed one are skipped, the buffer is released straight
    after it, and the failed write's status is in [res]. *)
Lemma loop_body_write_fails (e : iter_env) (s : locals)
    (h : camera_fb_t * option buffer) (site : chunk_site) :
  ok (res s) = true ->
  payload_ready e = Some h ->
  first_failed_write e = Some site ->
  res (fst (loop_body e s)) = httpd_resp_send_chunk e site /\
  ok (httpd_resp_send_chunk e site) = false /\
  parts_emitted (snd (loop_body e s)) = 0%nat /\
  exists l d n,
    snd (loop_body e s)
    = l ++ [EvSendChunk site d n (httpd_resp_send_chunk e site);
            due_release h].
Proof.
  unfold payload_ready, first_failed_write.
  body_cases e s; intros _; cbn [negb]; try discriminate;
    try (destruct (ok (httpd_resp_send_chunk e Payload)) eqn:HwP;
         cbn [negb]; try discriminate);
    intros Hh Hs; injection Hh as <-; injection Hs as <-;
    (split; [reflexivity|]); (split; [assumption|]);
    (split; [unfold parts_emitted, count; cbn [filter is_part_end];
             rewrite ?HwP; reflexivity|]);
    cbn [due_release];
    first [ exists []; do 2 eexists; reflexivity
          | eexists [_]; do 2 eexists; reflexivity
          | eexists [_; _]; do 2 eexists; reflexivity
          | eexists [_; _; _]; do 2 eexists; reflexivity
          | eexists [_; _; _; _]; do 2 eexists; reflexivity
          | eexists [_; _; _; _; _]; do 2 eexists; reflexivity ].
Qed.

(** ** Runs of the loop *)

Section Run.

Variable tick : Z.

(** [stream_loop] one iteration further. *)
Lemma stream_loop_S (fuel : nat) (it : nat -> iter_env) (i : nat)
    (s : locals) :
  stream_loop tick (S fuel) it i s
  = if negb (ok (res (fst (loop_body (it i) s))))
    then (Some (res (fst (loop_body (it i) s))),
          fst (loop_body (it i) s), snd (loop_body (it i) s))
    else
      let '(r, s2, t2) :=
        stream_loop tick fuel it (S i) (fst (loop_body (it i) s)) in
      (r, s2,
       snd (loop_body (it i) s) ++ EvDelay (10 / tick) :: t2).
Proof.
  cbn [stream_loop]. destruct (loop_body (it i) s) as [s1 t1]. reflexivity.
Qed.

Lemma stream_loop_owns (fuel : nat) (it : nat -> iter_env) (i : nat)
    (s : locals) :
  ptrs_null s ->
  let t := snd (stream_loop tick fuel it i s) in
  own_run nothing_held t = Some nothing_held /\
  count is_acquired t = count is_fb_return t /\
  count is_encoded t = count is_free t.
Proof.
  revert i s; induction fuel as [|fuel IH]; intros i s Hs;
    [repeat split|].
  cbv zeta. rewrite stream_loop_S.
  pose proof (loop_body_ptrs_null (it i) s) as Hn.
  pose proof (loop_body_owns (it i) s Hs) as Ho.
  pose proof (loop_body_counts (it i) s Hs) as [Hc1 Hc2].
  destruct (negb (ok (res (fst (loop_body (it i) s))))); cbn [snd];
    [repeat split; assumption|].
  specialize (IH (S i) _ Hn). cbv zeta in IH.
  destruct (stream_loop tick fuel it (S i) (fst (loop_body (it i) s)))
    as [[r s2] t2].
  cbn [snd] in *. destruct IH as (IH1 & IH2 & IH3).
  rewrite own_run_app, Ho. cbn [own_run own_step].
  rewrite !count_app, !count_cons. cbn [is_acquired is_fb_return is_encoded
                                         is_free].
  repeat split; [assumption | lia | lia].
Qed.

(** The loop is only ever left with a status other than [ESP_OK], the
    status of the last operation performed. *)
Lemma stream_loop_exit (fuel : nat) (it : nat -> iter_env) (i : nat)
    (s : locals) (r : esp_err_t) :
  ok (res s) = true ->
  fst (fst (stream_loop tick fuel it i s)) = Some r ->
  r <> ESP_OK /\
  last_status (snd (stream_loop tick fuel it i s)) = Some r.
Proof.
  revert i s; induction fuel as [|fuel IH]; intros i s Hs;
    [discriminate|].
  rewrite stream_loop_S.
  pose proof (loop_body_last_status (it i) s Hs) as Hl.
  destruct (ok (res (fst (loop_body (it i) s)))) eqn:Hok; cbn [negb].
  - specialize (IH (S i) _ Hok).
    destruct (stream_loop tick fuel it (S i) (fst (loop_body (it i) s)))
      as [[r' s2] t2].
    cbn [fst snd] in *. intros Hr. destruct (IH Hr) as [Hne Hls].
    split; [exact Hne|].
    rewrite last_status_app. cbn [last_status op_status].
    now rewrite Hls.
  - cbn [fst snd]. intros Hr. injection Hr as <-.
    split; [apply ok_false; exact Hok | exact Hl].
Qed.

(** The loop is left at the first iteration in which something fails. *)
Lemma stream_loop_exits (fuel : nat) (it : nat -> iter_env) (i k : nat)
    (s : locals) :
  ok (res s) = true ->
  iter_ok (it (i + k)%nat) = false ->
  (k < fuel)%nat ->
  fst (fst (stream_loop tick fuel it i s)) <> None.
Proof.
  revert i k s; induction fuel as [|fuel IH]; intros i k s Hs Hk Hlt;
    [lia|].
  rewrite stream_loop_S.
  pose proof (loop_body_ok (it i) s Hs) as Hb.
  destruct (ok (res (fst (loop_body (it i) s)))) eqn:Hok; cbn [negb];
    [|discriminate].
  destruct k as [|k].
  { rewrite Nat.add_0_r in Hk. congruence. }
  specialize (IH (S i) k _ Hok).
  replace (S i + k)%nat with (i + S k)%nat in IH by lia.
  specialize (IH Hk ltac:(lia)).
  destruct (stream_loop tick fuel it (S i) (fst (loop_body (it i) s)))
    as [[r' s2] t2].
  exact IH.
Qed.

(** As long as nothing fails the loop goes on. *)
Lemma stream_loop_goes_on (fuel : nat) (it : nat -> iter_env) (i : nat)
    (s : locals) :
  ok (res s) = true ->
  (forall k, iter_ok (it k) = true) ->
  fst (fst (stream_loop tick fuel it i s)) = None.
Proof.
  revert i s; induction fuel as [|fuel IH]; intros i s Hs Hall;
    [reflexivity|].
  rewrite stream_loop_S.
  pose proof (loop_body_ok (it i) s Hs) as Hb.
  rewrite Hall in Hb. rewrite Hb. cbn [negb].
  specialize (IH (S i) _ Hb Hall).
  destruct (stream_loop tick fuel it (S i) (fst (loop_body (it i) s)))
    as [[r' s2] t2].
  exact IH.
Qed.

Lemma stream_loop_no_preamble (fuel : nat) (it : nat -> iter_env) (i : nat)
    (s : locals) :
  count is_preamble (snd (stream_loop tick fuel it i s)) = 0%nat.
Proof.
  revert i s; induction fuel as [|fuel IH]; intros i s; [reflexivity|].
  rewrite stream_loop_S.
  pose proof (loop_body_no_preamble (it i) s) as Hb.
  destruct (negb (ok (res (fst (loop_body (it i) s))))); [exact Hb|].
  specialize (IH (S i) (fst (loop_body (it i) s))).
  destruct (stream_loop tick fuel it (S i) (fst (loop_body (it i) s)))
    as [[r s2] t2].
  cbn [snd] in *. rewrite count_app, count_cons, Hb, IH. reflexivity.
Qed.

(** [k] iterations in which nothing fails: the loop is still running
    after them, [k] parts are out, and a longer run goes on from
    there. *)
Lemma stream_loop_prefix (k m : nat) (it : nat -> iter_env) (i : nat)
    (s : locals) :
  ok (res s) = true ->
  (forall j, (j < k)%nat -> iter_ok (it (i + j)%nat) = true) ->
  exists s' t,
    stream_loop tick k it i s = (None, s', t) /\
    ok (res s') = true /\
    parts_emitted t = k /\
    stream_loop tick (k + m) it i s
    = (let '(r, s2, t2) := stream_loop tick m it (i + k)%nat s' in
       (r, s2, t ++ t2)).
Proof.
  revert i s; induction k as [|k IH]; intros i s Hs Hall.
  - exists s, []. rewrite Nat.add_0_r. cbn [stream_loop Nat.add app].
    repeat split; [assumption|].
    destruct (stream_loop tick m it i s) as [[r s2] t2]. reflexivity.
  - pose proof (Hall 0%nat ltac:(lia)) as H0. rewrite Nat.add_0_r in H0.
    pose proof (loop_body_ok (it i) s Hs) as Hb. rewrite H0 in Hb.
    pose proof (loop_body_part (it i) s Hs H0) as Hp.
    destruct (IH (S i) (fst (loop_body (it i) s)) Hb) as (s' & t & E1 & E2 & E3 & E4).
    { intros j Hj. replace (S i + j)%nat with (i + S j)%nat by lia.
      apply Hall. lia. }
    exists s', (snd (loop_body (it i) s) ++ EvDelay (10 / tick) :: t).
    cbn [Nat.add]. rewrite !stream_loop_S, Hb. cbn [negb].
    rewrite E1, E4.
    replace (S i + k)%nat with (i + S k)%nat by lia.
    split; [reflexivity|]. split; [assumption|]. split.
    + unfold parts_emitted in *. rewrite count_app, count_cons, Hp, E3.
      reflexivity.
    + destruct (stream_loop tick m it (i + S k) s') as [[r s2] t2].
      rewrite <- List.app_assoc. reflexivity.
Qed.

End Run.

(** ** The handler *)

(** C2, as the code has it.  Over any run of the handler the trace
    follows the ownership protocol: a frame is acquired only while none
    is owned, only the owned frame is returned, only the owned encoder
    buffer is freed, and at the loop head and at the return nothing is
    owned; so every frame acquired is returned exactly once and every
    buffer the encoder allocated is freed exactly once.  The calls of
    [esp_camera_fb_get] that yield a frame are as many as the calls of
    [esp_camera_fb_return], and the successful calls of [frame2jpg] as
    many as the calls of [free].  The release block of an iteration
    makes no call when no buffer is held and exactly one when one is. *)
Theorem buffers_released_once :
  (forall (tick : Z) (fuel : nat) (E : env) (ts0 : timeval)
          (pb0 : list byte),
      let t := trace (stream_handler tick fuel E ts0 pb0) in
      own_run nothing_held t = Some nothing_held /\
      count is_acquired t = count is_fb_return t /\
      count is_encoded t = count is_free t) /\
  (forall s : locals,
      (ptrs_null s -> snd (release s) = []) /\
      (~ ptrs_null s ->
       exists ev, snd (release s) = [ev] /\ is_release ev = true)).
Proof.
  split.
  - intros tick fuel E ts0 pb0. unfold stream_handler.
    destruct (negb (ok (res (set_res (httpd_resp_set_type E)
                               (init_locals ts0 pb0))))).
    + cbn [trace]. repeat split.
    + pose proof (stream_loop_owns tick fuel (iters E) 0
                    (set_res (httpd_resp_set_type E) (init_locals ts0 pb0)))
        as H.
      destruct (stream_loop tick fuel (iters E) 0 _) as [[r s'] t'].
      cbn [trace snd] in *.
      destruct (H ltac:(split; reflexivity)) as (H1 & H2 & H3).
      cbn [own_run own_step]. rewrite !count_cons.
      cbn [is_acquired is_fb_return is_encoded is_free].
      repeat split; [assumption | lia | lia].
  - intros s. unfold ptrs_null, release.
    destruct (fb s) as [f|]; [|destruct (_jpg_buf s) as [b|]]; cbn [snd].
    + split; [intros [H _]; discriminate H|].
      intros _. eexists; split; reflexivity.
    + split; [intros [_ H]; discriminate H|].
      intros _. eexists; split; reflexivity.
    + split; [reflexivity|]. intros H. exfalso. apply H. split; reflexivity.
Qed.

(** C2, as stated, fails: a raw frame costs one call of
    [esp_camera_fb_get] and two releases, the return of the frame and
    the [free] of the encoder's buffer.  Here the first frame is raw, is
    encoded, and the client goes away at the payload write. *)
Lemma acquire_calls_differ_from_releases :
  let R := stream_handler 1 3
             (Sample.after 0 Sample.calm (Sample.hangup_rgb Payload))
             Sample.ts0 Sample.pb0 in
  ret R = Some ESP_FAIL /\
  acquire_calls (trace R) = 1%nat /\
  count is_acquired (trace R) = 1%nat /\
  release_free_calls (trace R) = 2%nat /\
  acquire_calls (trace R) <> release_free_calls (trace R).
Proof.
  vm_compute. repeat split; discriminate.
Qed.

(** C7.  Whenever the handler returns, what it returns is not [ESP_OK];
    it is the status of the last operation performed, an operation that
    failed — the frame acquisition, the encoding, a chunk write, or the
    setting of the content type, whose status is returned as it is when
    it fails.  The handler does return as soon as something fails in
    some iteration, and it never returns as long as nothing does. *)
Theorem stream_handler_returns_failure (tick : Z) (E : env) (ts0 : timeval)
    (pb0 : list byte) :
  (forall fuel r,
      ret (stream_handler tick fuel E ts0 pb0) = Some r ->
      r <> ESP_OK /\
      last_status (trace (stream_handler tick fuel E ts0 pb0)) = Some r /\
      (exists ev, In ev (trace (stream_handler tick fuel E ts0 pb0)) /\
                  is_failure ev = true /\ op_status ev = Some r) /\
      (ok (httpd_resp_set_type E) = false -> r = httpd_resp_set_type E)) /\
  (forall k fuel,
      iter_ok (iters E k) = false -> (k < fuel)%nat ->
      ret (stream_handler tick fuel E ts0 pb0) <> None) /\
  ((forall k, iter_ok (iters E k) = true) ->
   ok (httpd_resp_set_type E) = true ->
   forall fuel, ret (stream_handler tick fuel E ts0 pb0) = None).
Proof.
  assert (forall fuel r,
             ret (stream_handler tick fuel E ts0 pb0) = Some r ->
             r <> ESP_OK /\
             last_status (trace (stream_handler tick fuel E ts0 pb0)) = Some r /\
             (ok (httpd_resp_set_type E) = false ->
              r = httpd_resp_set_type E)) as Hret.
  { intros fuel r. unfold stream_handler. cbn [res set_res].
    destruct (ok (httpd_resp_set_type E)) eqn:Hty; cbn [negb].
    - pose proof (stream_loop_exit tick fuel (iters E) 0
                    (set_res (httpd_resp_set_type E) (init_locals ts0 pb0)) r
                    Hty) as H.
      destruct (stream_loop tick fuel (iters E) 0 _) as [[r' s'] t].
      cbn [ret trace fst snd] in *. intros Hr. destruct (H Hr) as [Hne Hls].
      split; [exact Hne|]. split; [|discriminate].
      cbn [last_status]. now rewrite Hls.
    - cbn [ret trace]. intros Hr. injection Hr as <-.
      split; [apply ok_false; exact Hty|].
      split; [reflexivity|]. reflexivity. }
  split; [|split].
  - intros fuel r Hr. destruct (Hret fuel r Hr) as (Hne & Hls & Hty).
    split; [exact Hne|]. split; [exact Hls|]. split; [|exact Hty].
    destruct (last_status_in _ _ Hls) as (ev & Hin & Hst).
    exists ev. split; [exact Hin|]. split; [|exact Hst].
    unfold is_failure. rewrite Hst.
    destruct (ok r) eqn:Hok; [|reflexivity].
    exfalso. apply Hne. apply ok_true. exact Hok.
  - intros k fuel Hk Hlt. unfold stream_handler. cbn [res set_res].
    destruct (ok (httpd_resp_set_type E)) eqn:Hty; cbn [negb];
      [|discriminate].
    pose proof (stream_loop_exits tick fuel (iters E) 0 k
                  (set_res (httpd_resp_set_type E) (init_locals ts0 pb0))
                  Hty Hk Hlt) as H.
    destruct (stream_loop tick fuel (iters E) 0 _) as [[r' s'] t].
    exact H.
  - intros Hall Hty fuel. unfold stream_handler. cbn [res set_res].
    rewrite Hty. cbn [negb].
    pose proof (stream_loop_goes_on tick fuel (iters E) 0
                  (set_res (httpd_resp_set_type E) (init_locals ts0 pb0))
                  Hty Hall) as H.
    destruct (stream_loop tick fuel (iters E) 0 _) as [[r' s'] t].
    exact H.
Qed.

(** C8, as the code has it.  The handler first sets the content type to
    [multipart/x-mixed-replace;boundary=123456789000000000000987654321],
    with no space after the semicolon.  If that succeeds it sets
    [Access-Control-Allow-Origin: *] and [X-Framerate: 60] next, and
    never sets a type or a header again; if it fails the handler returns
    that status at once, having made no other call at all. *)
Theorem stream_handler_preamble (tick : Z) (fuel : nat) (E : env)
    (ts0 : timeval) (pb0 : list byte) :
  let R := stream_handler tick fuel E ts0 pb0 in
  let type :=
    "multipart/x-mixed-replace;boundary=123456789000000000000987654321" in
  (ok (httpd_resp_set_type E) = true ->
   exists t,
     trace R = EvSetType type (httpd_resp_set_type E)
               :: EvSetHdr "Access-Control-Allow-Origin" "*"
               :: EvSetHdr "X-Framerate" "60" :: t /\
     count is_preamble t = 0%nat) /\
  (ok (httpd_resp_set_type E) = false ->
   trace R = [EvSetType type (httpd_resp_set_type E)] /\
   ret R = Some (httpd_resp_set_type E) /\
   chunk_writes (trace R) = 0%nat).
Proof.
  cbv zeta. unfold stream_handler. cbn [res set_res].
  destruct (ok (httpd_resp_set_type E)) eqn:Hty; cbn [negb].
  - split; [intros _ | discriminate].
    apply ok_true in Hty. rewrite Hty.
    pose proof (stream_loop_no_preamble tick fuel (iters E) 0
                  (set_res ESP_OK (init_locals ts0 pb0))) as Hn.
    destruct (stream_loop tick fuel (iters E) 0 _) as [[r' s'] t].
    exists t. split; [reflexivity | exact Hn].
  - split; [discriminate | intros _].
    repeat split.
Qed.

(** C8, as stated, fails: the content type set has no space between the
    semicolon and [boundary]. *)
Lemma content_type_has_no_space :
  let R := stream_handler 1 2 (Sample.after 1 Sample.calm Sample.no_frame)
             Sample.ts0 Sample.pb0 in
  types_set (trace R)
  = ["multipart/x-mixed-replace;boundary=123456789000000000000987654321"] /\
  types_set (trace R)
  <> ["multipart/x-mixed-replace; boundary=123456789000000000000987654321"].
Proof.
  vm_compute. split; [reflexivity | discriminate].
Qed.

(** C6.  Let the first [k] iterations go without failure and let, in
    iteration [k], a buffer be in hand (the JPEG frame, or the encoder's
    buffer for a raw frame) and a chunk write fail.  Then the handler
    returns the status of that write; the trace ends with the failed
    write directly followed by the release of that buffer (the frame
    returned to the frame source, or the encoder's buffer freed); and
    the [k] parts of the earlier iterations are all there: the trace
    extends that of the first [k] iterations and counts [k] parts. *)
Theorem write_failure_releases (tick : Z) (fuel k : nat) (E : env)
    (ts0 : timeval) (pb0 : list byte) (h : camera_fb_t * option buffer)
    (site : chunk_site) :
  ok (httpd_resp_set_type E) = true ->
  (forall j, (j < k)%nat -> iter_ok (iters E j) = true) ->
  payload_ready (iters E k) = Some h ->
  first_failed_write (iters E k) = Some site ->
  (k < fuel)%nat ->
  let R := stream_handler tick fuel E ts0 pb0 in
  let r := httpd_resp_send_chunk (iters E k) site in
  ret R = Some r /\
  r <> ESP_OK /\
  (exists l d n, trace R = l ++ [EvSendChunk site d n r; due_release h]) /\
  (exists tk,
      trace R = trace (stream_handler tick k E ts0 pb0) ++ tk /\
      parts_emitted (trace (stream_handler tick k E ts0 pb0)) = k) /\
  parts_emitted (trace R) = k.
Proof.
  intros Hty Hall Hh Hsite Hlt. cbv zeta.
  unfold stream_handler. cbn [res set_res]. rewrite Hty. cbn [negb].
  set (s0 := set_res (httpd_resp_set_type E) (init_locals ts0 pb0)).
  destruct (stream_loop_prefix tick k (fuel - k) (iters E) 0 s0 Hty Hall)
    as (s' & t & E1 & E2 & E3 & E4).
  replace (k + (fuel - k))%nat with fuel in E4 by lia.
  rewrite E1, E4. cbn [Nat.add].
  destruct (fuel - k)%nat as [|m] eqn:Hm; [lia|].
  rewrite stream_loop_S.
  destruct (loop_body_write_fails (iters E k) s' h site E2 Hh Hsite)
    as (Hr & Hbad & Hp & l & d & n & Hl).
  rewrite Hr, Hbad. cbn [negb ret trace].
  split; [reflexivity|].
  split; [apply ok_false; exact Hbad|].
  split; [|split].
  - exists (EvSetType _STREAM_CONTENT_TYPE (httpd_resp_set_type E)
            :: EvSetHdr "Access-Control-Allow-Origin" "*"
            :: EvSetHdr "X-Framerate" "60" :: t ++ l), d, n.
    rewrite Hl. cbn [app]. rewrite <- List.app_assoc. reflexivity.
  - exists (snd (loop_body (iters E k) s')). split; [reflexivity|].
    unfold parts_emitted in *. rewrite !count_cons. cbn [is_part_end].
    exact E3.
  - unfold parts_emitted in *. rewrite !count_cons, count_app.
    cbn [is_part_end]. rewrite E3, Hp. lia.
Qed.

(** ** Scenarios *)

Module Scenario.

Import Sample.

Example printf_conversions :
  fmt_u 0 = "0" /\ fmt_u 1200 = "1200" /\ fmt_u 4294967295 = "4294967295" /\
  fmt_u (-1) = "4294967295" /\
  fmt_d 17 = "17" /\ fmt_d (-5) = "-5" /\ fmt_d 2147483647 = "2147483647" /\
  fmt_0d 6 42 = "000042" /\ fmt_0d 6 999999 = "999999" /\
  fmt_0d 6 (-5) = "-00005" /\ fmt_0d 6 1234567 = "1234567".
Proof. vm_compute. repeat split. Qed.

Example header_of_sample_frame :
  vformat _STREAM_PART [1200; 17; 42]
  = ("Content-Type: image/jpeg" ++ CRLF ++
     "Content-Length: 1200" ++ CRLF ++
     "X-Timestamp: 17.000042" ++ CRLF ++ CRLF)%string.
Proof. vm_compute. reflexivity. Qed.

(** Three JPEG frames, then the frame source has nothing: three parts,
    and the handler returns [ESP_FAIL]. *)
Example three_frames_then_unavailable :
  let R := stream_handler 1 10 (after 3 calm no_frame) ts0 pb0 in
  ret R = Some ESP_FAIL /\
  parts_emitted (trace R) = 3%nat /\
  sites_of (trace R)
  = [Boundary; Header; Payload; Boundary; Header; Payload;
     Boundary; Header; Payload] /\
  acquire_calls (trace R) = 4%nat /\
  release_free_calls (trace R) = 3%nat.
Proof. vm_compute. repeat split. Qed.

(** A raw frame that the encoder cannot take: no part, the frame is
    returned once, and the handler returns [ESP_FAIL]. *)
Example encoder_failure :
  let R := stream_handler 1 10 (after 0 calm bad_encode) ts0 pb0 in
  ret R = Some ESP_FAIL /\
  chunk_writes (trace R) = 0%nat /\
  count is_fb_return (trace R) = 1%nat /\
  count is_free (trace R) = 0%nat.
Proof. vm_compute. repeat split. Qed.

(** As long as fuel lasts and nothing fails, the handler is still in its
    loop. *)
Example still_streaming :
  ret (stream_handler 1 4 (after 9 calm no_frame) ts0 pb0) = None.
Proof. vm_compute. reflexivity. Qed.

End Scenario.

(** ** The theorems at work on the sample environments *)

Module Witness.

Import Sample.

(** Find an event in a concrete trace. *)
Ltac find_event :=
  vm_compute; repeat first [left; reflexivity | right].

Lemma calm_ok : iter_env_ok calm.
Proof.
  split.
  - intros f H. injection H as <-.
    unfold frame_ok, size_ok, timeval_ok. cbn. lia.
  - intros f q b n H. injection H as <- <-. unfold size_ok. lia.
Defined.

(** C1 on a JPEG frame of four bytes captured at 17.000042. *)
Lemma content_length_matches_payload_witness :
  exists f hb hlen N S U,
    esp_camera_fb_get calm = Some f /\
    next_to (EvSendChunk Header (Some hb) hlen ESP_OK)
            (EvSendChunk Payload (Some jpeg_bytes) 4 ESP_OK)
            (snd (loop_body calm s0)) /\
    chunk_bytes (Some hb) hlen
    = bytes_of ("Content-Type: image/jpeg" ++ CRLF ++
                "Content-Length: " ++ N ++ CRLF ++
                "X-Timestamp: " ++ S ++ "." ++ U ++ CRLF ++ CRLF) /\
    all_digits N = true /\ atou N = 4 /\
    all_digits S = true /\ atou S = tv_sec (timestamp f) /\
    String.length U = 6%nat /\ all_digits U = true /\
    atou U = tv_usec (timestamp f).
Proof.
  apply (content_length_matches_payload calm s0 (Some jpeg_bytes) 4 ESP_OK).
  - exact calm_ok.
  - find_event.
Defined.

(** C3 on a raw frame that the encoder cannot take. *)
Lemma non_jpeg_frame_encoded_witness :
  let e := bad_encode in
  let t := snd (loop_body e s0) in
  (exists rest,
      t = EvFbGet (Some frame_rgb)
          :: EvFrame2Jpg frame_rgb 80 (frame2jpg e frame_rgb 80)
          :: EvFbReturn frame_rgb :: rest /\
      forall ev, In ev rest -> is_encode_call ev = false) /\
  (frame2jpg e frame_rgb 80 = None ->
     (forall ev, In ev t -> is_chunk ev = false) /\
     res (fst (loop_body e s0)) = ESP_FAIL /\
     stream_loop 1 1 (fun _ => bad_encode) 0 s0
     = (Some ESP_FAIL, fst (loop_body e s0), t)).
Proof.
  apply (non_jpeg_frame_encoded 1 0 (fun _ => bad_encode) 0 s0 frame_rgb);
    reflexivity.
Defined.

(** C4 on a JPEG frame. *)
Lemma jpeg_frame_passed_through_witness :
  let t := snd (loop_body calm s0) in
  (exists sends,
      t = EvFbGet (Some frame_jpeg) :: sends ++ [EvFbReturn frame_jpeg] /\
      forall ev, In ev sends -> is_chunk ev = true) /\
  (forall d n r, In (EvSendChunk Payload d n r) t ->
      d = Some (bytes (buf frame_jpeg)) /\ n = len frame_jpeg /\
      (len frame_jpeg = Z.of_nat (List.length (bytes (buf frame_jpeg))) ->
       chunk_bytes d n = bytes (buf frame_jpeg))) /\
  (ok (res s0) = true ->
   ok (httpd_resp_send_chunk calm Boundary) = true ->
   ok (httpd_resp_send_chunk calm Header) = true ->
   In (EvSendChunk Payload (Some (bytes (buf frame_jpeg))) (len frame_jpeg)
         (httpd_resp_send_chunk calm Payload)) t).
Proof.
  apply (jpeg_frame_passed_through calm s0 frame_jpeg); reflexivity.
Defined.

(** C5 on a JPEG frame that goes out whole: the payload write comes
    directly after a header write that succeeded. *)
Lemma loop_body_write_order_witness :
  exists d0 n0,
    next_to (EvSendChunk Header d0 n0 ESP_OK)
            (EvSendChunk Payload (Some jpeg_bytes) 4 ESP_OK)
            (snd (loop_body calm s0)).
Proof.
  apply (proj2 (proj2 (proj2 (loop_body_write_order calm s0)))).
  find_event.
Defined.

(** C6 on the second of two JPEG frames: the client goes away at its
    payload write. *)
Lemma write_failure_releases_witness :
  let E := after 1 calm (hangup Payload) in
  let R := stream_handler 1 3 E ts0 pb0 in
  let r := httpd_resp_send_chunk (iters E 1) Payload in
  ret R = Some r /\
  r <> ESP_OK /\
  (exists l d n,
      trace R = l ++ [EvSendChunk Payload d n r;
                      due_release (frame_jpeg, None)]) /\
  (exists tk,
      trace R = trace (stream_handler 1 1 E ts0 pb0) ++ tk /\
      parts_emitted (trace (stream_handler 1 1 E ts0 pb0)) = 1%nat) /\
  parts_emitted (trace R) = 1%nat.
Proof.
  apply (write_failure_releases 1 3 1 (after 1 calm (hangup Payload))
           ts0 pb0 (frame_jpeg, None) Payload).
  - reflexivity.
  - intros j Hj. destruct j as [|j]; [reflexivity | lia].
  - reflexivity.
  - reflexivity.
  - lia.
Defined.

(** C7 on three JPEG frames followed by a failed acquisition. *)
Lemma stream_handler_returns_failure_witness :
  let R := stream_handler 1 5 (after 3 calm no_frame) ts0 pb0 in
  ESP_FAIL <> ESP_OK /\
  last_status (trace R) = Some ESP_FAIL /\
  (exists ev, In ev (trace R) /\
              is_failure ev = true /\ op_status ev = Some ESP_FAIL) /\
  (ok (httpd_resp_set_type (after 3 calm no_frame)) = false ->
   ESP_FAIL = httpd_resp_set_type (after 3 calm no_frame)).
Proof.
  apply (proj1 (stream_handler_returns_failure 1 (after 3 calm no_frame)
                  ts0 pb0) 5%nat ESP_FAIL).
  reflexivity.
Defined.

(** C8 when the content type cannot be set. *)
Lemma stream_handler_preamble_witness :
  let R := stream_handler 1 5 refused ts0 pb0 in
  trace R
  = [EvSetType
       "multipart/x-mixed-replace;boundary=123456789000000000000987654321"
       ESP_FAIL] /\
  ret R = Some ESP_FAIL /\
  chunk_writes (trace R) = 0%nat.
Proof.
  apply (proj2 (stream_handler_preamble 1 5 refused ts0 pb0)).
  reflexivity.
Defined.

(** C9 on a JPEG frame of four bytes captured at 17.000042. *)
Lemma header_length_unchecked_witness :
  exists f plen,
    esp_camera_fb_get calm = Some f /\
    let args := [plen; tv_sec (timestamp f); tv_usec (timestamp f)] in
    let p := snprintf (part_buf s0) 128 _STREAM_PART args in
    Some (fst (snprintf pb0 128 _STREAM_PART [4; 17; 42])) = Some (fst p) /\
    71 = snd p /\
    71 = Z.of_nat (String.length (vformat _STREAM_PART args)) /\
    (forall i, (128 <= i)%nat ->
               nth_error (fst p) i = nth_error (part_buf s0) i) /\
    71 <= 94.
Proof.
  apply (header_length_unchecked calm s0
           (Some (fst (snprintf pb0 128 _STREAM_PART [4; 17; 42]))) 71 ESP_OK).
  find_event.
Defined.

(** C2 on a raw frame whose payload write fails: the release block has
    the encoder's buffer to free. *)
Lemma buffers_released_once_witness :
  exists ev,
    snd (release (set_jpg (Some encoded) 4 s0)) = [ev] /\
    is_release ev = true.
Proof.
  apply (proj2 (proj2 buffers_released_once (set_jpg (Some encoded) 4 s0))).
  intros [_ H]. discriminate H.
Defined.

End Witness.

(** * Further properties of the stream handler *)

(** ** One pass *)

(** What a pass adds up to, when [res] is [ESP_OK] on entry: one call
    of [esp_camera_fb_get], no delay, one part if it ends with
    [ESP_OK] and none otherwise; the chunk writes are those of a whole
    part in the first case and stop at the failed one in the second. *)
Lemma loop_body_tally (e : iter_env) (s : locals) :
  ok (res s) = true ->
  let t := snd (loop_body e s) in
  count is_acquire_call t = 1%nat /\
  count is_delay t = 0%nat /\
  parts_emitted t = (if ok (res (fst (loop_body e s))) then 1 else 0)%nat /\
  (if ok (res (fst (loop_body e s)))
   then sites_of t = [Boundary; Header; Payload]
   else sites_of t = [] \/ sites_of t = [Boundary] \/
        sites_of t = [Boundary; Header] \/
        sites_of t = [Boundary; Header; Payload]).
Proof.
  body_cases e s; intros _;
    try (destruct (ok (httpd_resp_send_chunk e Payload)) eqn:HwP);
    unfold parts_emitted, count; cbn [filter is_part_end is_acquire_call
                                       is_delay sites_of List.length];
    rewrite ?HwP, ?HwH, ?HwB, ?ok_ESP_FAIL;
    cbn [filter List.length];
    (split; [reflexivity|]); (split; [reflexivity|]);
    (split; [reflexivity|]);
    first [ reflexivity | now left | now (right; left)
          | now (right; right; left) | now (do 3 right) ].
Qed.

(** The boundary chunk of a pass is the delimiter, whole. *)
Lemma loop_body_boundary (e : iter_env) (s : locals)
    (d : option (list byte)) (n : Z) (r : esp_err_t) :
  In (EvSendChunk Boundary d n r) (snd (loop_body e s)) ->
  d = Some (bytes_of _STREAM_BOUNDARY) /\ n = 36.
Proof.
  body_cases e s; intros H; pick_event H; split; reflexivity.
Qed.

(** A pass touches [part_buf] below index 128 only. *)
Lemma loop_body_part_buf (e : iter_env) (s : locals) :
  (forall i, (128 <= i)%nat ->
     nth_error (part_buf (fst (loop_body e s))) i
     = nth_error (part_buf s) i) /\
  ((128 <= List.length (part_buf s))%nat ->
   List.length (part_buf (fst (loop_body e s))) = List.length (part_buf s)).
Proof.
  body_cases e s; split;
    first [ reflexivity
          | intros i Hi; first [reflexivity | now apply Fmt.snprintf_beyond]
          | intros Hl; first [reflexivity | now apply Fmt.snprintf_length] ].
Qed.

(** X2.  When the frame acquired is not JPEG and the encoder takes it,
    the pass is: acquisition, encoder call, return of the frame, then
    chunk writes only, then the [free] of the encoder's buffer as the
    last event.  A header write announces the encoder's length, not the
    frame's, and a payload write is given the encoder's buffer and
    length. *)
Theorem encoded_frame_sent (e : iter_env) (s : locals) (f : camera_fb_t)
    (b : buffer) (n : Z) :
  encodes e f b n ->
  let t := snd (loop_body e s) in
  (exists sends,
      t = EvFbGet (Some f) :: EvFrame2Jpg f 80 (Some (b, n))
          :: EvFbReturn f :: sends ++ [EvFree b] /\
      forall ev, In ev sends -> is_chunk ev = true) /\
  (forall d m r, In (EvSendChunk Header d m r) t ->
      chunk_bytes d m
      = bytes_of (part_header n (tv_sec (timestamp f))
                    (tv_usec (timestamp f)))) /\
  (forall d m r, In (EvSendChunk Payload d m r) t ->
      d = Some (bytes b) /\ m = n).
Proof.
  intros (Hg & Hj & He) t. subst t.
  body_cases e s.
  all: split;
    [ first [ exists []; split; [reflexivity|]
            | eexists [_]; split; [reflexivity|]
            | eexists [_; _]; split; [reflexivity|]
            | eexists [_; _; _]; split; [reflexivity|] ];
      intros ev H; pick_event H; reflexivity | split ].
  all: intros d0 m0 r0 H; pick_event H.
  all: first [ apply header_chunk_bytes | split; reflexivity ].
Qed.

(** ** Runs *)

Lemma sites_of_app (t1 t2 : list event) :
  sites_of (t1 ++ t2) = sites_of t1 ++ sites_of t2.
Proof.
  induction t1 as [|ev t1 IH]; [reflexivity|].
  destruct ev; cbn [sites_of app]; rewrite IH; reflexivity.
Qed.

Section MoreRuns.

Variable tick : Z.

(** The events of the loop are delays and events of passes. *)
Lemma stream_loop_origin (fuel : nat) (it : nat -> iter_env) (i : nat)
    (s : locals) (ev : event) :
  In ev (snd (stream_loop tick fuel it i s)) ->
  ev = EvDelay (10 / tick) \/
  exists j s', In ev (snd (loop_body (it j) s')).
Proof.
  revert i s; induction fuel as [|fuel IH]; intros i s; [intros []|].
  rewrite stream_loop_S.
  destruct (negb (ok (res (fst (loop_body (it i) s))))); cbn [snd].
  - intros H. right. exists i, s. exact H.
  - specialize (IH (S i) (fst (loop_body (it i) s))).
    destruct (stream_loop tick fuel it (S i) (fst (loop_body (it i) s)))
      as [[r s2] t2].
    cbn [snd] in *. intros H. apply in_app_or in H.
    destruct H as [H|[H|H]].
    + right. exists i, s. exact H.
    + left. symmetry. exact H.
    + apply IH. exact H.
Qed.

(** What the passes of a run add up to. *)
Lemma stream_loop_tally (fuel : nat) (it : nat -> iter_env) (i : nat)
    (s : locals) :
  ok (res s) = true ->
  let r := fst (fst (stream_loop tick fuel it i s)) in
  let t := snd (stream_loop tick fuel it i s) in
  count is_delay t = parts_emitted t /\
  count is_acquire_call t
  = (parts_emitted t + match r with Some _ => 1 | None => 0 end)%nat /\
  (r = None -> parts_emitted t = fuel) /\
  exists tail,
    sites_of t = whole_parts (parts_emitted t) ++ tail /\
    (tail = [] \/ tail = [Boundary] \/ tail = [Boundary; Header] \/
     tail = [Boundary; Header; Payload]) /\
    (r = None -> tail = []).
Proof.
  revert i s; induction fuel as [|fuel IH]; intros i s Hs.
  { cbn. repeat split. exists []. repeat split. now left. }
  cbv zeta. rewrite stream_loop_S.
  destruct (loop_body_tally (it i) s Hs) as (Ha & Hd & Hp & Hsites).
  destruct (ok (res (fst (loop_body (it i) s)))) eqn:Hok; cbn [negb].
  - specialize (IH (S i) _ Hok). cbv zeta in IH.
    destruct (stream_loop tick fuel it (S i) (fst (loop_body (it i) s)))
      as [[r s2] t2].
    cbn [fst snd] in *.
    destruct IH as (I1 & I2 & I3 & tail & I4 & I5 & I6).
    unfold parts_emitted in *.
    rewrite !count_app, !count_cons, Ha, Hd, Hp.
    cbn [is_delay is_acquire_call is_part_end].
    split; [lia|]. split; [lia|]. split; [intros Hr; specialize (I3 Hr); lia|].
    exists tail. split; [|split; assumption].
    rewrite sites_of_app, Hsites. cbn [sites_of app Nat.add whole_parts].
    rewrite I4. reflexivity.
  - cbn [fst snd]. unfold parts_emitted in *. rewrite Ha, Hd, Hp.
    split; [reflexivity|]. split; [reflexivity|].
    split; [discriminate|].
    exists (sites_of (snd (loop_body (it i) s))).
    split; [reflexivity|]. split; [exact Hsites | discriminate].
Qed.

(** Once the loop is left, more fuel changes nothing. *)
Lemma stream_loop_stable (fuel m : nat) (it : nat -> iter_env) (i : nat)
    (s : locals) (r : esp_err_t) :
  fst (fst (stream_loop tick fuel it i s)) = Some r ->
  stream_loop tick (fuel + m) it i s = stream_loop tick fuel it i s.
Proof.
  revert i s; induction fuel as [|fuel IH]; intros i s; [discriminate|].
  cbn [Nat.add]. rewrite !stream_loop_S.
  destruct (negb (ok (res (fst (loop_body (it i) s))))); [reflexivity|].
  specialize (IH (S i) (fst (loop_body (it i) s))).
  destruct (stream_loop tick fuel it (S i) (fst (loop_body (it i) s)))
    as [[r' s2] t2].
  cbn [fst] in *. intros Hr. rewrite (IH Hr). reflexivity.
Qed.

(** A longer run extends the trace of a shorter one. *)
Lemma stream_loop_extends (fuel m : nat) (it : nat -> iter_env) (i : nat)
    (s : locals) :
  exists t',
    snd (stream_loop tick (fuel + m) it i s)
    = snd (stream_loop tick fuel it i s) ++ t'.
Proof.
  revert i s; induction fuel as [|fuel IH]; intros i s.
  { eexists. reflexivity. }
  cbn [Nat.add]. rewrite !stream_loop_S.
  destruct (negb (ok (res (fst (loop_body (it i) s))))).
  - exists []. now rewrite List.app_nil_r.
  - destruct (IH (S i) (fst (loop_body (it i) s))) as (t' & Ht').
    destruct (stream_loop tick (fuel + m) it (S i)
                (fst (loop_body (it i) s))) as [[r1 s1] t1].
    destruct (stream_loop tick fuel it (S i) (fst (loop_body (it i) s)))
      as [[r2 s2] t2].
    cbn [snd] in *. exists t'. rewrite Ht'.
    rewrite <- List.app_assoc. reflexivity.
Qed.

(** Over a run, [part_buf] changes below index 128 only. *)
Lemma stream_loop_part_buf (fuel : nat) (it : nat -> iter_env) (i : nat)
    (s : locals) :
  (forall j, (128 <= j)%nat ->
     nth_error (part_buf (snd (fst (stream_loop tick fuel it i s)))) j
     = nth_error (part_buf s) j) /\
  ((128 <= List.length (part_buf s))%nat ->
   List.length (part_buf (snd (fst (stream_loop tick fuel it i s))))
   = List.length (part_buf s)).
Proof.
  revert i s; induction fuel as [|fuel IH]; intros i s;
    [split; reflexivity|].
  rewrite stream_loop_S.
  destruct (loop_body_part_buf (it i) s) as [Hb Hl].
  destruct (negb (ok (res (fst (loop_body (it i) s))))); cbn [fst snd];
    [split; assumption|].
  destruct (IH (S i) (fst (loop_body (it i) s))) as [IH1 IH2].
  destruct (stream_loop tick fuel it (S i) (fst (loop_body (it i) s)))
    as [[r s2] t2].
  cbn [fst snd] in *. split.
  - intros j Hj. rewrite IH1 by exact Hj. apply Hb. exact Hj.
  - intros H. rewrite IH2 by (rewrite Hl; assumption). apply Hl. exact H.
Qed.

End MoreRuns.

(** The handler, once the content type is set, is its loop behind the
    three calls of the preamble. *)
Lemma stream_handler_streaming (tick : Z) (fuel : nat) (E : env)
    (ts0 : timeval) (pb0 : list byte) :
  ok (httpd_resp_set_type E) = true ->
  let L := stream_loop tick fuel (iters E) 0
             (set_res (httpd_resp_set_type E) (init_locals ts0 pb0)) in
  stream_handler tick fuel E ts0 pb0
  = {| ret := fst (fst L); final := snd (fst L);
       trace := EvSetType _STREAM_CONTENT_TYPE (httpd_resp_set_type E)
                :: EvSetHdr "Access-Control-Allow-Origin" "*"
                :: EvSetHdr "X-Framerate" "60" :: snd L |}.
Proof.
  intros Hty. cbv zeta. unfold stream_handler. cbn [res set_res].
  rewrite Hty. cbn [negb].
  destruct (stream_loop tick fuel (iters E) 0 _) as [[r s'] t]. reflexivity.
Qed.

Lemma stream_handler_refused (tick : Z) (fuel : nat) (E : env)
    (ts0 : timeval) (pb0 : list byte) :
  ok (httpd_resp_set_type E) = false ->
  stream_handler tick fuel E ts0 pb0
  = {| ret := Some (httpd_resp_set_type E);
       final := set_res (httpd_resp_set_type E) (init_locals ts0 pb0);
       trace := [EvSetType _STREAM_CONTENT_TYPE (httpd_resp_set_type E)] |}.
Proof.
  intros Hty. unfold stream_handler. cbn [res set_res].
  rewrite Hty. reflexivity.
Qed.

Lemma count_zero (p : event -> bool) (t : list event) (ev : event) :
  count p t = 0%nat -> In ev t -> p ev = false.
Proof.
  induction t as [|x t IH]; [intros _ []|].
  rewrite count_cons. intros H [<-|Hin].
  - destruct (p x); [discriminate H | reflexivity].
  - apply IH; [|exact Hin]. destruct (p x); [discriminate H | exact H].
Qed.

Lemma types_set_none (t : list event) :
  (forall ev, In ev t -> is_preamble ev = false) -> types_set t = [].
Proof.
  induction t as [|x t IH]; [reflexivity|]. intros H.
  pose proof (H x (or_introl eq_refl)) as Hx.
  destruct x; try discriminate Hx; cbn [types_set]; apply IH;
    intros ev Hin; apply H; right; exact Hin.
Qed.

(** The handler up to the first iteration in which something fails, and
    that iteration, which starts with no buffer held. *)
Lemma stream_handler_fails_at (tick : Z) (fuel k : nat) (E : env)
    (ts0 : timeval) (pb0 : list byte) :
  ok (httpd_resp_set_type E) = true ->
  (forall j, (j < k)%nat -> iter_ok (iters E j) = true) ->
  iter_ok (iters E k) = false ->
  (k < fuel)%nat ->
  exists s',
    ptrs_null s' /\ ok (res s') = true /\
    ret (stream_handler tick k E ts0 pb0) = None /\
    parts_emitted (trace (stream_handler tick k E ts0 pb0)) = k /\
    stream_handler tick fuel E ts0 pb0
    = {| ret := Some (res (fst (loop_body (iters E k) s')));
         final := fst (loop_body (iters E k) s');
         trace := trace (stream_handler tick k E ts0 pb0)
                  ++ snd (loop_body (iters E k) s') |}.
Proof.
  intros Hty Hall Hbad Hlt.
  rewrite !stream_handler_streaming by exact Hty. cbv zeta.
  set (s0 := set_res (httpd_resp_set_type E) (init_locals ts0 pb0)).
  destruct (stream_loop_prefix tick k (fuel - k) (iters E) 0 s0 Hty Hall)
    as (s' & t & E1 & E2 & E3 & E4).
  replace (k + (fuel - k))%nat with fuel in E4 by lia.
  pose proof (stream_loop_ptrs_null tick k (iters E) 0 s0
                ltac:(split; reflexivity)) as Hn.
  rewrite E1 in Hn. cbn [fst snd] in Hn.
  exists s'. rewrite E1, E4. cbn [fst snd ret trace Nat.add].
  split; [exact Hn|]. split; [exact E2|]. split; [reflexivity|].
  split.
  { unfold parts_emitted in *. rewrite !count_cons. exact E3. }
  destruct (fuel - k)%nat as [|m] eqn:Hm; [lia|].
  rewrite stream_loop_S.
  pose proof (loop_body_ok (iters E k) s' E2) as Hb. rewrite Hbad in Hb.
  rewrite Hb. cbn [negb fst snd]. reflexivity.
Qed.

(** X1.  In any run, the content type announces the boundary token
    [123456789000000000000987654321], and every boundary chunk written
    is the 36 bytes CR LF [--], that same token, CR LF. *)
Theorem boundary_matches_content_type (tick : Z) (fuel : nat) (E : env)
    (ts0 : timeval) (pb0 : list byte) :
  let R := stream_handler tick fuel E ts0 pb0 in
  let token := "123456789000000000000987654321"%string in
  types_set (trace R)
  = [("multipart/x-mixed-replace;boundary=" ++ token)%string] /\
  forall d n r,
    In (EvSendChunk Boundary d n r) (trace R) ->
    n = 36 /\
    chunk_bytes d n = bytes_of (CRLF ++ "--" ++ token ++ CRLF)%string.
Proof.
  cbv zeta.
  destruct (ok (httpd_resp_set_type E)) eqn:Hty.
  - rewrite stream_handler_streaming by exact Hty. cbv zeta. cbn [trace].
    split.
    + cbn [types_set]. rewrite types_set_none; [reflexivity|].
      intros ev Hin.
      apply (count_zero _ _ _ (stream_loop_no_preamble tick fuel (iters E) 0
                                 _) Hin).
    + intros d n r [H|[H|[H|H]]]; try discriminate H.
      apply stream_loop_origin in H. destruct H as [H|(j & s' & H)];
        [discriminate H|].
      apply loop_body_boundary in H. destruct H as [-> ->].
      split; reflexivity.
  - rewrite stream_handler_refused by exact Hty. cbn [trace].
    split; [reflexivity|].
    intros d n r [H|[]]. discriminate H.
Qed.

(** X3.  When the first [k] iterations go without failure and the frame
    source has nothing in iteration [k], the handler returns [ESP_FAIL];
    after what the first [k] iterations did it only calls
    [esp_camera_fb_get] and logs the failure: nothing is written,
    nothing is released; [k] parts went out. *)
Theorem unavailable_ends_stream (tick : Z) (fuel k : nat) (E : env)
    (ts0 : timeval) (pb0 : list byte) :
  ok (httpd_resp_set_type E) = true ->
  (forall j, (j < k)%nat -> iter_ok (iters E j) = true) ->
  esp_camera_fb_get (iters E k) = None ->
  (k < fuel)%nat ->
  let R := stream_handler tick fuel E ts0 pb0 in
  ret R = Some ESP_FAIL /\
  trace R = trace (stream_handler tick k E ts0 pb0)
            ++ [EvFbGet None; EvLog "Camera capture failed"] /\
  parts_emitted (trace R) = k.
Proof.
  intros Hty Hall Hget Hlt. cbv zeta.
  assert (iter_ok (iters E k) = false) as Hbad.
  { unfold iter_ok, payload_ready. now rewrite Hget. }
  destruct (stream_handler_fails_at tick fuel k E ts0 pb0 Hty Hall Hbad Hlt)
    as (s' & [Hfb Hjb] & Hok & _ & Hp & ->).
  cbn [ret trace].
  assert (loop_body (iters E k) s'
          = (set_res ESP_FAIL (set_fb None s'),
             [EvFbGet None; EvLog "Camera capture failed"])) as Hb.
  { generalize dependent (iters E k). intros e Hget _.
    body_cases e s'; try discriminate Hjb; reflexivity. }
  rewrite Hb. cbn [fst snd res set_res].
  split; [reflexivity|]. split; [reflexivity|].
  unfold parts_emitted in *. rewrite count_app, Hp. cbn. lia.
Qed.

(** X4.  When the first [k] iterations go without failure and in
    iteration [k] a frame that is not JPEG is refused by the encoder,
    the handler returns [ESP_FAIL]; after what the first [k] iterations
    did it acquires the frame, calls the encoder at quality 80, returns
    the frame and logs the failure, and that is all: the frame is
    released once, nothing is freed, nothing is written. *)
Theorem encode_failure_ends_stream (tick : Z) (fuel k : nat) (E : env)
    (ts0 : timeval) (pb0 : list byte) (f : camera_fb_t) :
  ok (httpd_resp_set_type E) = true ->
  (forall j, (j < k)%nat -> iter_ok (iters E j) = true) ->
  esp_camera_fb_get (iters E k) = Some f ->
  is_jpeg (format f) = false ->
  frame2jpg (iters E k) f 80 = None ->
  (k < fuel)%nat ->
  let R := stream_handler tick fuel E ts0 pb0 in
  ret R = Some ESP_FAIL /\
  trace R = trace (stream_handler tick k E ts0 pb0)
            ++ [EvFbGet (Some f); EvFrame2Jpg f 80 None; EvFbReturn f;
                EvLog "JPEG compression failed"] /\
  parts_emitted (trace R) = k.
Proof.
  intros Hty Hall Hget Hj Henc Hlt. cbv zeta.
  assert (iter_ok (iters E k) = false) as Hbad.
  { unfold iter_ok, payload_ready. now rewrite Hget, Hj, Henc. }
  destruct (stream_handler_fails_at tick fuel k E ts0 pb0 Hty Hall Hbad Hlt)
    as (s' & [Hfb Hjb] & Hok & _ & Hp & ->).
  cbn [ret trace].
  assert (res (fst (loop_body (iters E k) s')) = ESP_FAIL /\
          snd (loop_body (iters E k) s')
          = [EvFbGet (Some f); EvFrame2Jpg f 80 None; EvFbReturn f;
             EvLog "JPEG compression failed"]) as [Hr Ht].
  { generalize dependent (iters E k). intros e Hget Henc _.
    body_cases e s'; try discriminate Hjb; split; reflexivity. }
  rewrite Hr, Ht.
  split; [reflexivity|]. split; [reflexivity|].
  unfold parts_emitted in *. rewrite count_app, Hp. cbn. lia.
Qed.

(** X5.  Once the content type is set, a run delays once after every
    part it emits and never otherwise; it calls [esp_camera_fb_get]
    once per part, and once more if it has returned; and a run that is
    still in its loop after [fuel] iterations has emitted [fuel]
    parts. *)
Theorem pass_accounting (tick : Z) (fuel : nat) (E : env) (ts0 : timeval)
    (pb0 : list byte) :
  ok (httpd_resp_set_type E) = true ->
  let R := stream_handler tick fuel E ts0 pb0 in
  count is_delay (trace R) = parts_emitted (trace R) /\
  acquire_calls (trace R)
  = (parts_emitted (trace R)
     + match ret R with Some _ => 1 | None => 0 end)%nat /\
  (ret R = None -> parts_emitted (trace R) = fuel).
Proof.
  intros Hty. rewrite stream_handler_streaming by exact Hty. cbv zeta.
  cbn [ret trace].
  destruct (stream_loop_tally tick fuel (iters E) 0
              (set_res (httpd_resp_set_type E) (init_locals ts0 pb0)) Hty)
    as (H1 & H2 & H3 & _).
  unfold acquire_calls, parts_emitted in *. rewrite !count_cons.
  cbn [is_delay is_part_end is_acquire_call Nat.add].
  split; [exact H1|]. split; [exact H2 | exact H3].
Qed.

(** X6.  Every delay of a run is of [10 / portTICK_PERIOD_MS] ticks:
    no tick at all when a tick lasts longer than 10 ms, and between one
    and ten ticks otherwise. *)
Theorem delay_ticks (tick : Z) (fuel : nat) (E : env) (ts0 : timeval)
    (pb0 : list byte) (d : Z) :
  In (EvDelay d) (trace (stream_handler tick fuel E ts0 pb0)) ->
  d = 10 / tick /\
  (10 < tick -> d = 0) /\
  (0 < tick <= 10 -> 1 <= d <= 10).
Proof.
  intros H.
  assert (d = 10 / tick) as ->.
  { destruct (ok (httpd_resp_set_type E)) eqn:Hty.
    - rewrite stream_handler_streaming in H by exact Hty. cbn [trace] in H.
      destruct H as [H|[H|[H|H]]]; try discriminate H.
      apply stream_loop_origin in H. destruct H as [H|(j & s' & H)].
      + now injection H.
      + exfalso. revert H. clear.
        body_cases (iters E j) s'; intros H; pick_event H.
    - rewrite stream_handler_refused in H by exact Hty.
      destruct H as [H|[]]. discriminate H. }
  split; [reflexivity|]. split.
  - intros Ht. apply Z.div_small. lia.
  - intros Ht. split.
    + apply Z.div_le_lower_bound; lia.
    + apply Z.div_le_upper_bound; lia.
Qed.

(** The result of the handler does not depend on how long the run
    is watched: once it has returned, watching longer gives the same
    result, locals and trace; and watching longer only ever adds to the
    trace. *)
Theorem more_fuel_same_run (tick : Z) (E : env) (ts0 : timeval)
    (pb0 : list byte) :
  (forall fuel m r,
      ret (stream_handler tick fuel E ts0 pb0) = Some r ->
      stream_handler tick (fuel + m) E ts0 pb0
      = stream_handler tick fuel E ts0 pb0) /\
  (forall fuel m,
      exists t',
        trace (stream_handler tick (fuel + m) E ts0 pb0)
        = trace (stream_handler tick fuel E ts0 pb0) ++ t').
Proof.
  destruct (ok (httpd_resp_set_type E)) eqn:Hty.
  - split.
    + intros fuel m r. rewrite !stream_handler_streaming by exact Hty.
      cbv zeta. cbn [ret]. intros Hr.
      now rewrite (stream_loop_stable tick fuel m _ _ _ r Hr).
    + intros fuel m. rewrite !stream_handler_streaming by exact Hty.
      cbv zeta. cbn [trace].
      destruct (stream_loop_extends tick fuel m (iters E) 0
                  (set_res (httpd_resp_set_type E) (init_locals ts0 pb0)))
        as (t' & Ht').
      exists t'. rewrite Ht'. reflexivity.
  - split.
    + intros fuel m r _. now rewrite !stream_handler_refused by exact Hty.
    + intros fuel m. rewrite !stream_handler_refused by exact Hty.
      exists []. reflexivity.
Qed.

(** X7.  The chunk writes of any run are those of the parts it emitted,
    boundary, header, payload each, followed by at most one part that
    was cut short by a failed write; a run that is still in its loop
    has written whole parts only. *)
Theorem stream_framing (tick : Z) (fuel : nat) (E : env) (ts0 : timeval)
    (pb0 : list byte) :
  let R := stream_handler tick fuel E ts0 pb0 in
  exists tail,
    sites_of (trace R) = whole_parts (parts_emitted (trace R)) ++ tail /\
    (tail = [] \/ tail = [Boundary] \/ tail = [Boundary; Header] \/
     tail = [Boundary; Header; Payload]) /\
    (ret R = None -> tail = []).
Proof.
  cbv zeta. destruct (ok (httpd_resp_set_type E)) eqn:Hty.
  - rewrite stream_handler_streaming by exact Hty. cbv zeta.
    cbn [ret trace].
    destruct (stream_loop_tally tick fuel (iters E) 0
                (set_res (httpd_resp_set_type E) (init_locals ts0 pb0)) Hty)
      as (_ & _ & _ & tail & H1 & H2 & H3).
    exists tail. unfold parts_emitted in *. rewrite !count_cons.
    cbn [is_part_end sites_of Nat.add].
    split; [exact H1|]. split; [exact H2 | exact H3].
  - rewrite stream_handler_refused by exact Hty. cbn [ret trace].
    exists []. split; [reflexivity|]. split; [now left | reflexivity].
Qed.

(** X8.  Whatever a run formats into [part_buf], the bytes at index 128
    and beyond are at its end what they were on entry, and an array of
    at least 128 bytes keeps its size: the handler writes within the
    first 128 bytes only. *)
Theorem part_buf_confined (tick : Z) (fuel : nat) (E : env) (ts0 : timeval)
    (pb0 : list byte) :
  let R := stream_handler tick fuel E ts0 pb0 in
  (forall j, (128 <= j)%nat ->
     nth_error (part_buf (final R)) j = nth_error pb0 j) /\
  ((128 <= List.length pb0)%nat ->
   List.length (part_buf (final R)) = List.length pb0).
Proof.
  cbv zeta. destruct (ok (httpd_resp_set_type E)) eqn:Hty.
  - rewrite stream_handler_streaming by exact Hty. cbv zeta. cbn [final].
    apply (stream_loop_part_buf tick fuel (iters E) 0
             (set_res (httpd_resp_set_type E) (init_locals ts0 pb0))).
  - rewrite stream_handler_refused by exact Hty. cbn [final].
    split; reflexivity.
Qed.

(** ** What goes on the wire *)

Lemma wire_app (t1 t2 : list event) :
  wire (t1 ++ t2) = wire t1 ++ wire t2.
Proof.
  induction t1 as [|ev t1 IH]; [reflexivity|].
  destruct ev; cbn [wire app]; rewrite IH; reflexivity.
Qed.

(** With [res = ESP_OK] on entry, what a pass sends and the status it
    ends with are fixed by the environment: the locals left over from
    earlier, or never initialised, have no part in them. *)
Lemma loop_body_wire (e : iter_env) (s : locals) :
  ok (res s) = true ->
  wire (snd (loop_body e s)) = pass_wire e /\
  res (fst (loop_body e s)) = pass_res e.
Proof.
  unfold pass_wire, pass_res, jpeg_in_hand, first_failed_write.
  body_cases e s; intros _; cbn [negb wire];
    rewrite ?header_chunk_bytes;
    try (destruct (ok (httpd_resp_send_chunk e Payload)); cbn [negb]);
    split; reflexivity.
Qed.

Lemma stream_loop_wire (tick : Z) (fuel : nat) (it : nat -> iter_env)
    (i : nat) (s s' : locals) :
  ok (res s) = true -> ok (res s') = true ->
  fst (fst (stream_loop tick fuel it i s))
  = fst (fst (stream_loop tick fuel it i s')) /\
  wire (snd (stream_loop tick fuel it i s))
  = wire (snd (stream_loop tick fuel it i s')).
Proof.
  revert i s s'; induction fuel as [|fuel IH]; intros i s s' Hs Hs';
    [split; reflexivity|].
  rewrite !stream_loop_S.
  destruct (loop_body_wire (it i) s Hs) as [Hw Hr].
  destruct (loop_body_wire (it i) s' Hs') as [Hw' Hr'].
  rewrite Hr, Hr'.
  destruct (ok (pass_res (it i))) eqn:Hok; cbn [negb fst snd].
  - specialize (IH (S i) (fst (loop_body (it i) s))
                  (fst (loop_body (it i) s'))).
    rewrite Hr, Hr' in IH. specialize (IH Hok Hok).
    destruct (stream_loop tick fuel it (S i) (fst (loop_body (it i) s)))
      as [[r1 s1] t1].
    destruct (stream_loop tick fuel it (S i) (fst (loop_body (it i) s')))
      as [[r2 s2] t2].
    cbn [fst snd] in *. destruct IH as [I1 I2].
    split; [exact I1|].
    rewrite !wire_app, Hw, Hw'. cbn [wire]. now rewrite I2.
  - split; [reflexivity | now rewrite Hw, Hw'].
Qed.

(** X12.  What the handler sends and what it returns do not depend on
    what its uninitialised locals [_timestamp] and [part_buf] held on
    entry: two runs that differ in them only put the same bytes at the
    same places on the wire, get the same answers and return the same
    status. *)
Theorem wire_independent_of_stack (tick : Z) (fuel : nat) (E : env)
    (ts0 ts0' : timeval) (pb0 pb0' : list byte) :
  ret (stream_handler tick fuel E ts0 pb0)
  = ret (stream_handler tick fuel E ts0' pb0') /\
  wire (trace (stream_handler tick fuel E ts0 pb0))
  = wire (trace (stream_handler tick fuel E ts0' pb0')).
Proof.
  destruct (ok (httpd_resp_set_type E)) eqn:Hty.
  - rewrite !stream_handler_streaming by exact Hty. cbv zeta.
    cbn [ret trace wire].
    apply (stream_loop_wire tick fuel (iters E) 0
             (set_res (httpd_resp_set_type E) (init_locals ts0 pb0))
             (set_res (httpd_resp_set_type E) (init_locals ts0' pb0'))
             Hty Hty).
  - rewrite !stream_handler_refused by exact Hty. split; reflexivity.
Qed.

Lemma stream_loop_passes (tick : Z) (fuel : nat) (it : nat -> iter_env)
    (i : nat) (s : locals) :
  ok (res s) = true ->
  exists m,
    (m <= fuel)%nat /\
    wire (snd (stream_loop tick fuel it i s))
    = flat_map (fun j => pass_wire (it j)) (List.seq i m) /\
    (forall j, (S j < m)%nat -> ok (pass_res (it (i + j)%nat)) = true) /\
    match fst (fst (stream_loop tick fuel it i s)) with
    | None => m = fuel
    | Some r =>
        (1 <= m)%nat /\ r = pass_res (it (i + m - 1)%nat) /\ ok r = false
    end.
Proof.
  revert i s; induction fuel as [|fuel IH]; intros i s Hs.
  { exists 0%nat. split; [lia|]. split; [reflexivity|].
    split; [intros j Hj; lia | reflexivity]. }
  rewrite stream_loop_S.
  destruct (loop_body_wire (it i) s Hs) as [Hw Hr].
  rewrite Hr.
  destruct (ok (pass_res (it i))) eqn:Hok; cbn [negb fst snd].
  - specialize (IH (S i) (fst (loop_body (it i) s))).
    rewrite Hr in IH. destruct (IH Hok) as (m & Hm & Hwm & Hall & Hret).
    destruct (stream_loop tick fuel it (S i) (fst (loop_body (it i) s)))
      as [[r1 s1] t1].
    cbn [fst snd] in *.
    exists (S m). split; [lia|]. split; [|split].
    + rewrite wire_app, Hw. cbn [wire List.seq flat_map]. now rewrite Hwm.
    + intros [|j] Hj; [now rewrite Nat.add_0_r|].
      replace (i + S j)%nat with (S i + j)%nat by lia. apply Hall. lia.
    + destruct r1 as [r|].
      * destruct Hret as (H1 & H2 & H3). split; [lia|].
        split; [|exact H3].
        rewrite H2. f_equal. f_equal. lia.
      * now rewrite Hret.
  - exists 1%nat. split; [lia|]. split; [|split].
    + rewrite Hw. cbn [List.seq flat_map]. now rewrite List.app_nil_r.
    + intros j Hj. lia.
    + split; [lia|]. split; [|exact Hok].
      f_equal. f_equal. lia.
Qed.

(** X13.  Once the content type is set, a run of the handler is a
    number [m] of passes, all but the last of which end with [ESP_OK].
    What it puts on the wire is, pass by pass, what the environment of
    that pass determines: the boundary, then, while the writes succeed,
    the header for the JPEG in hand and that JPEG.  If the run has
    returned, it returned the status of the last pass, which is not
    [ESP_OK]; if not, it has made [fuel] passes. *)
Theorem wire_of_run (tick : Z) (fuel : nat) (E : env) (ts0 : timeval)
    (pb0 : list byte) :
  ok (httpd_resp_set_type E) = true ->
  let R := stream_handler tick fuel E ts0 pb0 in
  exists m,
    (m <= fuel)%nat /\
    wire (trace R) = flat_map (fun j => pass_wire (iters E j)) (List.seq 0 m) /\
    (forall j, (S j < m)%nat -> ok (pass_res (iters E j)) = true) /\
    match ret R with
    | None => m = fuel
    | Some r =>
        (1 <= m)%nat /\ r = pass_res (iters E (m - 1)) /\ ok r = false
    end.
Proof.
  intros Hty. rewrite stream_handler_streaming by exact Hty. cbv zeta.
  cbn [ret trace wire].
  apply (stream_loop_passes tick fuel (iters E) 0
           (set_res (httpd_resp_set_type E) (init_locals ts0 pb0)) Hty).
Qed.

(** * The index page and the start of the server *)

(** X9.  [index_handler] sets the content type [text/html] and the
    header [Content-Encoding: identity], then sends the page: all 484
    bytes of it, since it holds no NUL for [strlen] to stop at.  It
    returns what the send returned, whatever became of the two calls
    before it. *)
Theorem index_handler_sends_page (e : index_env) :
  fst (index_handler e) = ix_send e /\
  exists body n,
    snd (index_handler e)
    = [SrvSetType "text/html" (ix_set_type e);
       SrvSetHdr "Content-Encoding" "identity" (ix_set_hdr e);
       SrvSend body n (ix_send e)] /\
    n = 484 /\
    List.length body = 484%nat /\
    firstn (Z.to_nat n) body = bytes_of INDEX_HTML.
Proof.
  split; [reflexivity|].
  exists (bytes_of INDEX_HTML), (Z.of_nat (strlen INDEX_HTML)).
  split; [reflexivity|].
  split; [vm_compute; reflexivity|].
  split; [vm_compute; reflexivity|].
  vm_compute. reflexivity.
Qed.

(** X10.  [startCameraServer] announces port 80 and starts the server
    with the default configuration in which only the port is changed,
    to 80.  If the start returns [ESP_OK] it registers, on the handle
    the start gave, first [GET /] for [index_handler] and then
    [GET /stream] for [stream_handler], the second whatever the first
    registration returned; otherwise it registers nothing.  The global
    handle ends up as the start left it. *)
Theorem startCameraServer_registers (dflt : httpd_config_t)
    (h0 : httpd_handle_t) (e : start_env) :
  let config := set_server_port 80 dflt in
  let r := fst (httpd_start e config h0) in
  let h := snd (httpd_start e config h0) in
  let t := snd (startCameraServer dflt h0 e) in
  fst (startCameraServer dflt h0 e) = h /\
  server_port config = 80 /\
  (task_priority config, stack_size config, ctrl_port config,
   max_open_sockets config, max_uri_handlers config)
  = (task_priority dflt, stack_size dflt, ctrl_port dflt,
     max_open_sockets dflt, max_uri_handlers dflt) /\
  (exists regs,
      t = SrvPrintf ("Starting web server on port: '80'" ++ String LF "")
          :: SrvStart config r h :: regs /\
      regs = if ok r
             then [SrvRegister h index_uri
                     (httpd_register_uri_handler e index_uri);
                   SrvRegister h stream_uri
                     (httpd_register_uri_handler e stream_uri)]
             else []) /\
  registered t = (if ok r then [index_uri; stream_uri] else []).
Proof.
  cbv zeta. unfold startCameraServer.
  destruct (httpd_start e (set_server_port 80 dflt) h0) as [r h].
  cbn [fst snd server_port set_server_port task_priority stack_size
       ctrl_port max_open_sockets max_uri_handlers].
  destruct (ok r); cbn [fst snd];
    (split; [reflexivity|]); (split; [reflexivity|]);
    (split; [reflexivity|]);
    (split; [eexists; split; reflexivity | reflexivity]).
Qed.

(** X11.  The image of the index page points at a route the server
    has: when the start succeeds, the [src] of the page is the URI of a
    registered handler, and that handler is [stream_handler], on
    [GET]. *)
Theorem page_links_to_stream (dflt : httpd_config_t) (h0 : httpd_handle_t)
    (e : start_env) :
  ok (fst (httpd_start e (set_server_port 80 dflt) h0)) = true ->
  exists u,
    In u (registered (snd (startCameraServer dflt h0 e))) /\
    attr_value "src" INDEX_HTML = Some (uri u) /\
    method u = HTTP_GET /\
    handler u = Stream_handler.
Proof.
  intros Hok.
  destruct (startCameraServer_registers dflt h0 e) as (_ & _ & _ & _ & Hr).
  cbv zeta in Hr. rewrite Hok in Hr. rewrite Hr.
  exists stream_uri. split; [right; left; reflexivity|].
  split; [vm_compute; reflexivity|]. split; reflexivity.
Qed.

(** ** The further theorems at work on the sample environments *)

Module MoreWitness.

Import Sample.

Ltac find_event :=
  vm_compute; repeat first [left; reflexivity | right].

(** X2 on a raw frame that is encoded into four bytes. *)
Lemma encoded_frame_sent_witness :
  let t := snd (loop_body calm_rgb s0) in
  (exists sends,
      t = EvFbGet (Some frame_rgb)
          :: EvFrame2Jpg frame_rgb 80 (Some (encoded, 4))
          :: EvFbReturn frame_rgb :: sends ++ [EvFree encoded] /\
      forall ev, In ev sends -> is_chunk ev = true) /\
  (forall d m r, In (EvSendChunk Header d m r) t ->
      chunk_bytes d m
      = bytes_of (part_header 4 (tv_sec (timestamp frame_rgb))
                    (tv_usec (timestamp frame_rgb)))) /\
  (forall d m r, In (EvSendChunk Payload d m r) t ->
      d = Some (bytes encoded) /\ m = 4).
Proof.
  apply (encoded_frame_sent calm_rgb s0 frame_rgb encoded 4).
  repeat split.
Defined.

(** X3 on three JPEG frames followed by a failed acquisition. *)
Lemma unavailable_ends_stream_witness :
  let E := after 3 calm no_frame in
  let R := stream_handler 1 5 E ts0 pb0 in
  ret R = Some ESP_FAIL /\
  trace R = trace (stream_handler 1 3 E ts0 pb0)
            ++ [EvFbGet None; EvLog "Camera capture failed"] /\
  parts_emitted (trace R) = 3%nat.
Proof.
  apply (unavailable_ends_stream 1 5 3 (after 3 calm no_frame) ts0 pb0).
  - reflexivity.
  - intros j Hj. destruct j as [|[|[|j]]]; [reflexivity.. | lia].
  - reflexivity.
  - lia.
Defined.

(** X4 on a JPEG frame followed by a raw frame that the encoder cannot
    take. *)
Lemma encode_failure_ends_stream_witness :
  let E := after 1 calm bad_encode in
  let R := stream_handler 1 3 E ts0 pb0 in
  ret R = Some ESP_FAIL /\
  trace R = trace (stream_handler 1 1 E ts0 pb0)
            ++ [EvFbGet (Some frame_rgb); EvFrame2Jpg frame_rgb 80 None;
                EvFbReturn frame_rgb; EvLog "JPEG compression failed"] /\
  parts_emitted (trace R) = 1%nat.
Proof.
  apply (encode_failure_ends_stream 1 3 1 (after 1 calm bad_encode) ts0 pb0
           frame_rgb).
  - reflexivity.
  - intros j Hj. destruct j as [|j]; [reflexivity | lia].
  - reflexivity.
  - reflexivity.
  - reflexivity.
  - lia.
Defined.

(** X5 on three JPEG frames followed by a failed acquisition. *)
Lemma pass_accounting_witness :
  let R := stream_handler 1 5 (after 3 calm no_frame) ts0 pb0 in
  count is_delay (trace R) = parts_emitted (trace R) /\
  acquire_calls (trace R)
  = (parts_emitted (trace R)
     + match ret R with Some _ => 1 | None => 0 end)%nat /\
  (ret R = None -> parts_emitted (trace R) = 5%nat).
Proof.
  apply (pass_accounting 1 5 (after 3 calm no_frame) ts0 pb0).
  reflexivity.
Defined.

(** X6 with a tick of one millisecond: ten ticks. *)
Lemma delay_ticks_witness :
  10 = 10 / 1 /\ (10 < 1 -> 10 = 0) /\ (0 < 1 <= 10 -> 1 <= 10 <= 10).
Proof.
  apply (delay_ticks 1 5 (after 3 calm no_frame) ts0 pb0 10).
  find_event.
Defined.

(** X13 on three JPEG frames followed by a failed acquisition. *)
Lemma wire_of_run_witness :
  let E := after 3 calm no_frame in
  let R := stream_handler 1 5 E ts0 pb0 in
  exists m,
    (m <= 5)%nat /\
    wire (trace R) = flat_map (fun j => pass_wire (iters E j)) (List.seq 0 m) /\
    (forall j, (S j < m)%nat -> ok (pass_res (iters E j)) = true) /\
    match ret R with
    | None => m = 5%nat
    | Some r =>
        (1 <= m)%nat /\ r = pass_res (iters E (m - 1)) /\ ok r = false
    end.
Proof.
  apply (wire_of_run 1 5 (after 3 calm no_frame) ts0 pb0).
  reflexivity.
Defined.

(** X11 on a server that starts. *)
Lemma page_links_to_stream_witness :
  exists u,
    In u (registered
            (snd (startCameraServer SampleServer.default_config None
                    SampleServer.starts))) /\
    attr_value "src" INDEX_HTML = Some (uri u) /\
    method u = HTTP_GET /\
    handler u = Stream_handler.
Proof.
  apply (page_links_to_stream SampleServer.default_config None
           SampleServer.starts).
  reflexivity.
Defined.

End MoreWitness.
